(** * CodeConclave: password-reset OTP flow and change-password flow

    A shallow embedding of the two React components that drive them,
    [OTPVerification] (client/src/components/Auth/OTPVerification.jsx) and
    [Settings] (the security section of the settings page), together with
    the password checklist rendered by [renderSecuritySection].

    JavaScript strings are sequences of UTF-16 code units; [.length], [===]
    and the character classes of the regular expressions used here all work
    on code units, so a string is a [list N].  A [useState] cell is a record
    field and its setter a record update.  An [async] handler is cut at its
    single [await]: the part before it runs inside the UI event, the part
    after it runs when the promise settles, on the state of that moment. *)

From Stdlib Require Import List String Ascii NArith Bool Arith Lia.
Import ListNotations.

Set Implicit Arguments.

(* ================================================================== *)
(** ** JavaScript values used by the components *)

Module JS.

Definition code_unit := N.
Definition jsstring := list code_unit.

(** A string literal of the source (ASCII only). *)
Definition str (s : string) : jsstring :=
  map N_of_ascii (list_ascii_of_string s).

(** [a === b] on two strings. *)
Fixpoint strict_eq (a b : jsstring) : bool :=
  match a, b with
  | [], [] => true
  | x :: a', y :: b' => N.eqb x y && strict_eq a' b'
  | _, _ => false
  end.

(** Truthiness of a string: only the empty string is falsy. *)
Definition truthy (s : jsstring) : bool :=
  match s with [] => false | _ :: _ => true end.

(** Truthiness of a value that is a string, [null] or [undefined]. *)
Definition truthy_opt (v : option jsstring) : bool :=
  match v with Some s => truthy s | None => false end.

(** [v || d] where [v] is a string or [undefined] and [d] a string. *)
Definition or_else (v : option jsstring) (d : jsstring) : jsstring :=
  match v with
  | Some s => if truthy s then s else d
  | None => d
  end.

(** [/[lo-hi]/]-style membership of one code unit. *)
Definition in_range (lo hi : code_unit) (c : code_unit) : bool :=
  N.leb lo c && N.leb c hi.

Definition one_of (cs : list code_unit) (c : code_unit) : bool :=
  existsb (N.eqb c) cs.

(** [/[class]/.test(s)]: some code unit of [s] is in the class. *)
Definition test (cls : code_unit -> bool) (s : jsstring) : bool :=
  existsb cls s.

End JS.
Import JS.

(* ================================================================== *)
(** ** The password checklist and the validator *)

Module Validators.

(** The character class of the fifth checklist item, one code unit per
    character, in the order of the source: exclamation mark, at, hash,
    dollar, percent, caret, ampersand, asterisk, both parentheses,
    underscore, plus, hyphen, equals, both square brackets, both braces,
    semicolon, apostrophe, colon, double quote, backslash, vertical bar,
    comma, full stop, less-than, greater-than, slash, question mark. *)
Definition specialChars : list code_unit :=
  [ 33; 64; 35; 36; 37; 94; 38; 42; 40; 41; 95; 43; 45; 61; 91; 93;
    123; 125; 59; 39; 58; 34; 92; 124; 44; 46; 60; 62; 47; 63 ]%N.

Definition lowercase : code_unit -> bool := in_range 97%N 122%N.  (* a-z *)
Definition uppercase : code_unit -> bool := in_range 65%N 90%N.    (* A-Z *)
Definition digit : code_unit -> bool := in_range 48%N 57%N.        (* 0-9 *)
Definition special : code_unit -> bool := one_of specialChars.

(** The [$valid] flags of the five [RequirementItem]s rendered under the
    new-password input, each computed from [passwordData.newPassword]
    alone. *)
Record Requirements := {
  atLeast8 : bool;
  oneLowercase : bool;
  oneUppercase : bool;
  oneNumber : bool;
  oneSpecial : bool
}.

Definition requirementItems (newPassword : jsstring) : Requirements :=
  {| atLeast8 := 8 <=? List.length newPassword;
     oneLowercase := test lowercase newPassword;
     oneUppercase := test uppercase newPassword;
     oneNumber := test digit newPassword;
     oneSpecial := test special newPassword |}.

Definition flags (r : Requirements) : list bool :=
  [atLeast8 r; oneLowercase r; oneUppercase r; oneNumber r; oneSpecial r].

(** What [handlePasswordUpdate] reads from the validator's result. *)
Record Validation := { isValid : bool; message : jsstring }.

Inductive RuleId := MinLength | Lowercase | Uppercase | Digit | Special.

Definition rules : list RuleId :=
  [MinLength; Lowercase; Uppercase; Digit; Special].

Definition passes (p : jsstring) (r : RuleId) : bool :=
  match r with
  | MinLength => 8 <=? List.length p
  | Lowercase => test lowercase p
  | Uppercase => test uppercase p
  | Digit => test digit p
  | Special => test special p
  end.

Definition failedRule (p : jsstring) : option RuleId :=
  find (fun r => negb (passes p r)) rules.

(** Modelled from the spec: [validatePassword] of utils/validators, which
    [Settings] imports and which is not among the sources.  The spec gives
    it five rules, all of which must pass, and a report of the failed
    rule; the special-character set is the one of the checklist.  The
    wording of its messages is unknown and is left to [ruleMessage]. *)
Definition validatePassword (ruleMessage : RuleId -> jsstring)
    (candidate : jsstring) : Validation :=
  match failedRule candidate with
  | None => {| isValid := true; message := [] |}
  | Some r => {| isValid := false; message := ruleMessage r |}
  end.

(** A stand-in for the unknown messages: the checklist labels. *)
Definition checklistLabel (r : RuleId) : jsstring :=
  match r with
  | MinLength => str "At least 8 characters"
  | Lowercase => str "One lowercase letter (a-z)"
  | Uppercase => str "One uppercase letter (A-Z)"
  | Digit => str "One number (0-9)"
  | Special => str "One special character"
  end.

(** The policy in the words of the spec. *)
Definition meets_policy (p : jsstring) : Prop :=
  (8 <= List.length p)%nat /\
  (exists c, In c p /\ (97 <= c /\ c <= 122)%N) /\
  (exists c, In c p /\ (65 <= c /\ c <= 90)%N) /\
  (exists c, In c p /\ (48 <= c /\ c <= 57)%N) /\
  (exists c, In c p /\ In c specialChars).

End Validators.

(* ================================================================== *)
(** ** The authentication service, seen from the components *)

Module AuthService.

(** The three calls the components make, with the arguments they pass.
    The first argument of [resetPassword] is the [verificationToken]
    cell, which starts out as [null]. *)
Inductive Call :=
| verifyOTP (resetToken otp : jsstring)
| resetPassword (verificationToken : option jsstring)
                (newPassword : jsstring)
| changePassword (currentPassword newPassword : jsstring).

(** What the handlers read from the error of a rejected call:
    [err.response?.data?.message] and [err.message]. *)
Record Failure := {
  response_data_message : option jsstring;
  error_message : option jsstring
}.

(** Modelled from the spec: services/authService is not among the
    sources.  The spec has [verifyOTP] return a verification token and the
    other two calls return nothing; every call may fail with an error
    that can carry a message. *)
Inductive Outcome :=
| Resolved (value : option jsstring)
| Rejected (err : Failure).

End AuthService.
Import AuthService.

(* ================================================================== *)
(** ** Event handlers with one await, and a component that runs them *)

Module Async.

Section Handler.
Variables (S Sig : Type).

(** The code after the [await], run on the state current when the
    promise settles. *)
Definition Continuation := Outcome -> S -> S * list Sig.

(** The outcome of the synchronous part of a handler: the state after
    its setters, what it signalled to the outside, and the call it now
    awaits, if it got that far. *)
Record Ran := {
  state : S;
  signals : list Sig;
  awaiting : option (Call * Continuation)
}.

Definition called (r : Ran) : list Call :=
  match awaiting r with Some (c, _) => [c] | None => [] end.

(** The handler run to its end, the awaited call settling with [o]
    and nothing else happening in between. *)
Definition settle (o : Outcome) (r : Ran) : S * list Sig :=
  match awaiting r with
  | Some (_, k) => let (s, sg) := k o (state r) in (s, signals r ++ sg)
  | None => (state r, signals r)
  end.
End Handler.

(** A mounted component: its state, the UI events it can receive in a
    given state ([None] when the control is disabled or not rendered),
    and the handler each one runs. *)
Record Component := {
  St : Type;
  Ev : Type;
  Sig : Type;
  mount : St;
  fire : Ev -> St -> option (Ran St Sig)
}.

Section Machine.
Variable C : Component.

Record World := {
  comp : St C;
  inflight : list (Call * Continuation (St C) (Sig C));
  issued : list Call;
  signalled : list (Sig C)
}.

Definition mounted : World :=
  {| comp := mount C; inflight := []; issued := []; signalled := [] |}.

Inductive Label :=
| UI (e : Ev C)
| Settle (c : Call) (o : Outcome).

Definition pending (a : option (Call * Continuation (St C) (Sig C)))
  : list (Call * Continuation (St C) (Sig C)) :=
  match a with Some p => [p] | None => [] end.

(** One step: either a UI event runs the synchronous part of its
    handler, or one of the calls in flight settles and its continuation
    runs. *)
Inductive step : World -> Label -> World -> Prop :=
| step_ui w e r :
    fire C e (comp w) = Some r ->
    step w (UI e)
      {| comp := state r;
         inflight := inflight w ++ pending (awaiting r);
         issued := issued w ++ called r;
         signalled := signalled w ++ signals r |}
| step_settle w before c k after o s sg :
    inflight w = before ++ (c, k) :: after ->
    k o (comp w) = (s, sg) ->
    step w (Settle c o)
      {| comp := s;
         inflight := before ++ after;
         issued := issued w;
         signalled := signalled w ++ sg |}.

(** Runs from a world [w0], with the labels taken, newest first. *)
Inductive run (w0 : World) : list Label -> World -> Prop :=
| run_here : run w0 [] w0
| run_step h w l w' : run w0 h w -> step w l w' -> run w0 (l :: h) w'.

(** Worlds reachable from mounting the component. *)
Definition reach : list Label -> World -> Prop := run mounted.

(** At most one call is in flight, and the flag [busy] is up while one
    is. *)
Definition quiet_or_busy (busy : St C -> bool) (w : World) : Prop :=
  (List.length (inflight w) <= 1)%nat /\
  (inflight w <> [] -> busy (comp w) = true).
End Machine.

Arguments pending {C} a.

End Async.
Import Async.

(* ================================================================== *)
(** ** OTPVerification.jsx *)

Module OTPVerification.

Record State := {
  otp : jsstring;
  newPassword : jsstring;
  confirmPassword : jsstring;
  error : option jsstring;          (* a string or null *)
  message : option jsstring;        (* a string or null *)
  isSubmitting : bool;
  verificationToken : option jsstring   (* a string or null *)
}.

Definition initial : State :=
  {| otp := []; newPassword := []; confirmPassword := [];
     error := None; message := None; isSubmitting := false;
     verificationToken := None |}.

Definition setOtp (v : jsstring) (s : State) : State :=
  {| otp := v; newPassword := newPassword s;
     confirmPassword := confirmPassword s; error := error s;
     message := message s; isSubmitting := isSubmitting s;
     verificationToken := verificationToken s |}.

Definition setNewPassword (v : jsstring) (s : State) : State :=
  {| otp := otp s; newPassword := v;
     confirmPassword := confirmPassword s; error := error s;
     message := message s; isSubmitting := isSubmitting s;
     verificationToken := verificationToken s |}.

Definition setConfirmPassword (v : jsstring) (s : State) : State :=
  {| otp := otp s; newPassword := newPassword s;
     confirmPassword := v; error := error s;
     message := message s; isSubmitting := isSubmitting s;
     verificationToken := verificationToken s |}.

Definition setError (v : option jsstring) (s : State) : State :=
  {| otp := otp s; newPassword := newPassword s;
     confirmPassword := confirmPassword s; error := v;
     message := message s; isSubmitting := isSubmitting s;
     verificationToken := verificationToken s |}.

Definition setMessage (v : option jsstring) (s : State) : State :=
  {| otp := otp s; newPassword := newPassword s;
     confirmPassword := confirmPassword s; error := error s;
     message := v; isSubmitting := isSubmitting s;
     verificationToken := verificationToken s |}.

Definition setIsSubmitting (v : bool) (s : State) : State :=
  {| otp := otp s; newPassword := newPassword s;
     confirmPassword := confirmPassword s; error := error s;
     message := message s; isSubmitting := v;
     verificationToken := verificationToken s |}.

Definition setVerificationToken (v : option jsstring) (s : State) : State :=
  {| otp := otp s; newPassword := newPassword s;
     confirmPassword := confirmPassword s; error := error s;
     message := message s; isSubmitting := isSubmitting s;
     verificationToken := v |}.

(** What the component tells its parent: [onBack()] from the back button
    and [setTimeout(onBack, ms)] after a successful reset. *)
Inductive Signal :=
| onBack
| setTimeout_onBack (ms : N).

Definition passwordsDoNotMatch : jsstring := str "Passwords do not match".
Definition otpVerificationFailed : jsstring := str "OTP verification failed".
Definition passwordResetFailed : jsstring := str "Password reset failed".
Definition passwordResetSuccessfully : jsstring :=
  str "Password reset successfully! You can now login with your new password.".

(** Which of the two forms is on screen, and what the submit button and
    the alerts show. *)
Inductive Form := OTPForm | PasswordForm.

Record View := {
  form : Form;
  submitDisabled : bool;
  errorAlert : option jsstring;
  successAlert : option jsstring
}.

Definition shown (v : option jsstring) : option jsstring :=
  if truthy_opt v then v else None.

Definition render (s : State) : View :=
  {| form := if negb (truthy_opt (verificationToken s))
             then OTPForm else PasswordForm;
     submitDisabled := isSubmitting s;
     errorAlert := shown (error s);
     successAlert := shown (message s) |}.

Inductive Event :=
| changeOtp (value : jsstring)
| changeNewPassword (value : jsstring)
| changeConfirmPassword (value : jsstring)
| submit
| clickBack.

Section Props.
(** The [resetToken] prop. *)
Variable resetToken : jsstring.

(** [handleVerifyOTP] (lines 14-27): the part after
    [await verifyOTP(resetToken, otp)], with its [catch] and [finally]. *)
Definition afterVerifyOTP : Continuation State Signal :=
  fun o s =>
    match o with
    | Resolved verifyResponse =>
        (setIsSubmitting false
           (setError None
              (setVerificationToken (Some resetToken) s)), [])
    | Rejected err =>
        (setIsSubmitting false
           (setError
              (Some (or_else (response_data_message err)
                             otpVerificationFailed)) s), [])
    end.

(** [handleVerifyOTP], up to the [await]. *)
Definition handleVerifyOTP (s : State) : Ran State Signal :=
  {| state := setIsSubmitting true s;
     signals := [];
     awaiting := Some (verifyOTP resetToken (otp s), afterVerifyOTP) |}.

(** [handlePasswordReset] (lines 29-47): the part after
    [await resetPassword(verificationToken, newPassword)]. *)
Definition afterResetPassword : Continuation State Signal :=
  fun o s =>
    match o with
    | Resolved _ =>
        (setIsSubmitting false
           (setMessage (Some passwordResetSuccessfully) s),
         [setTimeout_onBack 3000])
    | Rejected err =>
        (setIsSubmitting false
           (setError
              (Some (or_else (response_data_message err)
                             passwordResetFailed)) s), [])
    end.

(** [handlePasswordReset], up to the [await] or to its early return. *)
Definition handlePasswordReset (s : State) : Ran State Signal :=
  if negb (strict_eq (newPassword s) (confirmPassword s)) then
    {| state := setError (Some passwordsDoNotMatch) s;
       signals := [];
       awaiting := None |}
  else
    {| state := setIsSubmitting true s;
       signals := [];
       awaiting :=
         Some (resetPassword (verificationToken s) (newPassword s),
               afterResetPassword) |}.

(** An [onChange] handler: it sets its cell and awaits nothing. *)
Definition performed (s : State) : Ran State Signal :=
  {| state := s; signals := []; awaiting := None |}.

(** The events the rendered tree can deliver, each against the view of
    the current state.  An input receives changes only while its form is
    on screen; a form is submitted only through its submit button, which
    is inert while disabled; the back button hands over to the parent's
    [onBack].  The [required] attribute of the inputs, by which a browser
    withholds a submit while a field is empty, is left out here: the
    component is given every submit its button allows, which is more than
    a browser delivers.  [deliver] below adds the attribute; whatever it
    delivers, [dispatch] delivers too. *)
Definition dispatch (e : Event) (s : State)
  : option (Ran State Signal) :=
  match e, form (render s) with
  | changeOtp v, OTPForm => Some (performed (setOtp v s))
  | changeNewPassword v, PasswordForm =>
      Some (performed (setNewPassword v s))
  | changeConfirmPassword v, PasswordForm =>
      Some (performed (setConfirmPassword v s))
  | submit, OTPForm =>
      if submitDisabled (render s) then None
      else Some (handleVerifyOTP s)
  | submit, PasswordForm =>
      if submitDisabled (render s) then None
      else Some (handlePasswordReset s)
  | clickBack, _ =>
      Some {| state := s; signals := [onBack]; awaiting := None |}
  | _, _ => None
  end.

Definition component : Component :=
  {| St := State; Ev := Event; Sig := Signal;
     mount := initial; fire := dispatch |}.

(** The [required] attribute of the inputs on screen (lines 65, 81 and
    92): whether each of them holds a non-empty value. *)
Definition requiredFilled (s : State) : bool :=
  match form (render s) with
  | OTPForm => truthy (otp s)
  | PasswordForm => truthy (newPassword s) && truthy (confirmPassword s)
  end.

(** What a browser delivers to the rendered tree: as [dispatch], but a
    submit is withheld while a required input of the form is empty. *)
Definition deliver (e : Event) (s : State) : option (Ran State Signal) :=
  match e with
  | submit => if requiredFilled s then dispatch e s else None
  | _ => dispatch e s
  end.

(** The component as a browser drives it. *)
Definition browser : Component :=
  {| St := State; Ev := Event; Sig := Signal;
     mount := initial; fire := deliver |}.
End Props.

End OTPVerification.

(* ================================================================== *)
(** ** Settings: the password form of the security section *)

Module Settings.
Import Validators.

Record PasswordData := {
  currentPassword : jsstring;
  newPassword : jsstring;
  confirmPassword : jsstring
}.

(** The cells of [Settings] that the password handlers read or write. *)
Record State := {
  passwordData : PasswordData;
  passwordError : jsstring;
  passwordSuccess : jsstring;
  isUpdatingPassword : bool
}.

Definition emptyPasswordData : PasswordData :=
  {| currentPassword := []; newPassword := []; confirmPassword := [] |}.

Definition initial : State :=
  {| passwordData := emptyPasswordData; passwordError := [];
     passwordSuccess := []; isUpdatingPassword := false |}.

Definition setPasswordData (v : PasswordData) (s : State) : State :=
  {| passwordData := v; passwordError := passwordError s;
     passwordSuccess := passwordSuccess s;
     isUpdatingPassword := isUpdatingPassword s |}.

Definition setPasswordError (v : jsstring) (s : State) : State :=
  {| passwordData := passwordData s; passwordError := v;
     passwordSuccess := passwordSuccess s;
     isUpdatingPassword := isUpdatingPassword s |}.

Definition setPasswordSuccess (v : jsstring) (s : State) : State :=
  {| passwordData := passwordData s; passwordError := passwordError s;
     passwordSuccess := v;
     isUpdatingPassword := isUpdatingPassword s |}.

Definition setIsUpdatingPassword (v : bool) (s : State) : State :=
  {| passwordData := passwordData s; passwordError := passwordError s;
     passwordSuccess := passwordSuccess s;
     isUpdatingPassword := v |}.

(** The [name] attribute of the three password inputs. *)
Inductive Name := nameCurrentPassword | nameNewPassword | nameConfirmPassword.

(** [{...prev, [name]: value}] *)
Definition assign (name : Name) (value : jsstring) (prev : PasswordData)
  : PasswordData :=
  match name with
  | nameCurrentPassword =>
      {| currentPassword := value; newPassword := newPassword prev;
         confirmPassword := confirmPassword prev |}
  | nameNewPassword =>
      {| currentPassword := currentPassword prev; newPassword := value;
         confirmPassword := confirmPassword prev |}
  | nameConfirmPassword =>
      {| currentPassword := currentPassword prev;
         newPassword := newPassword prev; confirmPassword := value |}
  end.

Definition currentPasswordRequired : jsstring :=
  str "Current password is required".
Definition newPasswordsDoNotMatch : jsstring :=
  str "New passwords do not match".
Definition mustBeDifferent : jsstring :=
  str "New password must be different from current password".
Definition updatedSuccessfully : jsstring :=
  str "Password updated successfully!".
Definition failedToUpdate : jsstring := str "Failed to update password".

(** The component signals nothing to the outside from these handlers. *)
Definition Signal := Empty_set.

Inductive Event :=
| change (name : Name) (value : jsstring)
| submit.

(** [handlePasswordChange] (lines 284-293). *)
Definition handlePasswordChange (name : Name) (value : jsstring)
    (s : State) : State :=
  let s1 := setPasswordData (assign name value (passwordData s)) s in
  let s2 := if truthy (passwordError s) then setPasswordError [] s1
            else s1 in
  if truthy (passwordSuccess s) then setPasswordSuccess [] s2 else s2.

Section Validator.
(** [validatePassword], imported from utils/validators. *)
Variable validatePassword : jsstring -> Validation.

(** [handlePasswordUpdate] (lines 295-344): the part after
    [await changePassword(...)], with its [catch] and [finally]. *)
Definition afterChangePassword : Continuation State Signal :=
  fun o s =>
    match o with
    | Resolved _ =>
        (setIsUpdatingPassword false
           (setPasswordData emptyPasswordData
              (setPasswordSuccess updatedSuccessfully s)), [])
    | Rejected error =>
        (setIsUpdatingPassword false
           (setPasswordData emptyPasswordData
              (setPasswordError
                 (or_else (response_data_message error)
                    (or_else (error_message error) failedToUpdate))
                 s)), [])
    end.

(** [setPasswordError(msg); return;] *)
Definition stopWith (msg : jsstring) (s : State) : Ran State Signal :=
  {| state := setPasswordError msg s; signals := []; awaiting := None |}.

(** [handlePasswordUpdate], up to the [await] or to an early return. *)
Definition handlePasswordUpdate (s : State) : Ran State Signal :=
  let d := passwordData s in
  if negb (truthy (currentPassword d)) then
    stopWith currentPasswordRequired s
  else
    let passwordValidation := validatePassword (newPassword d) in
    if negb (isValid passwordValidation) then
      stopWith (message passwordValidation) s
    else if negb (strict_eq (newPassword d) (confirmPassword d)) then
      stopWith newPasswordsDoNotMatch s
    else if strict_eq (currentPassword d) (newPassword d) then
      stopWith mustBeDifferent s
    else
      {| state := setPasswordError [] (setIsUpdatingPassword true s);
         signals := [];
         awaiting :=
           Some (changePassword (currentPassword d) (newPassword d),
                 afterChangePassword) |}.

(** The save button is [disabled={isUpdatingPassword}]. *)
Definition submitDisabled (s : State) : bool := isUpdatingPassword s.

Definition dispatch (e : Event) (s : State)
  : option (Ran State Signal) :=
  match e with
  | change name value =>
      Some {| state := handlePasswordChange name value s;
              signals := []; awaiting := None |}
  | submit =>
      if submitDisabled s then None else Some (handlePasswordUpdate s)
  end.

Definition component : Component :=
  {| St := State; Ev := Event; Sig := Signal;
     mount := initial; fire := dispatch |}.
End Validator.

End Settings.

(* ================================================================== *)
(** ** Sample sessions *)

Module Sample.
Import Validators.

Definition resetToken : jsstring := str "reset-token".
Definition serverToken : jsstring := str "server-issued-token".
Definition strong : jsstring := str "Abcdef1!".
Definition weak : jsstring := str "a".

Definition validate : jsstring -> Validation :=
  validatePassword checklistLabel.

Definition anyFailure : Failure :=
  {| response_data_message := None; error_message := None |}.

(** The reset screen with a six-digit code typed in. *)
Definition otpTyped : OTPVerification.State :=
  OTPVerification.setOtp (str "123456") OTPVerification.initial.

(** ... after the service accepted the code and returned its own token. *)
Definition otpAccepted : OTPVerification.State :=
  fst (settle (Resolved (Some serverToken))
         (OTPVerification.handleVerifyOTP resetToken otpTyped)).

(** ... with a new password and its confirmation typed in. *)
Definition passwordsTyped (new confirm : jsstring)
  : OTPVerification.State :=
  OTPVerification.setConfirmPassword confirm
    (OTPVerification.setNewPassword new otpAccepted).

(** The password form of the settings page, filled in. *)
Definition filled (current new confirm : jsstring) : Settings.State :=
  Settings.setPasswordData
    {| Settings.currentPassword := current;
       Settings.newPassword := new;
       Settings.confirmPassword := confirm |} Settings.initial.
End Sample.


(* ================================================================== *)
(** ** What the claims speak about *)

(** The three inputs of the reset screen, as entered. *)
Definition entered (s : OTPVerification.State)
  : jsstring * jsstring * jsstring :=
  (OTPVerification.otp s, OTPVerification.newPassword s,
   OTPVerification.confirmPassword s).

(** The local checks of [handlePasswordUpdate], any of which stops it. *)
Definition fails_locally (validatePassword : jsstring -> Validators.Validation)
    (d : Settings.PasswordData) : Prop :=
  Settings.currentPassword d = [] \/
  Validators.isValid (validatePassword (Settings.newPassword d)) = false \/
  Settings.newPassword d <> Settings.confirmPassword d \/
  Settings.currentPassword d = Settings.newPassword d.


(** A world and a label of the browser-driven reset screen, read as a
    world and a label of the screen under [dispatch]. *)
Definition widen (resetToken : jsstring)
    (w : World (OTPVerification.browser resetToken))
  : World (OTPVerification.component resetToken) :=
  @Build_World (OTPVerification.component resetToken)
    (comp w) (inflight w) (issued w) (signalled w).

Definition widen_label (resetToken : jsstring)
    (l : Label (OTPVerification.browser resetToken))
  : Label (OTPVerification.component resetToken) :=
  match l with
  | UI _ e => UI (OTPVerification.component resetToken) e
  | Settle _ c o => Settle (OTPVerification.component resetToken) c o
  end.

(** A history in which some [verifyOTP] call for [resetToken] resolved. *)
Definition verified (resetToken : jsstring)
    (h : list (Label (OTPVerification.component resetToken))) : Prop :=
  exists o v,
    In (Settle (OTPVerification.component resetToken)
          (verifyOTP resetToken o) (Resolved v)) h.

(** What holds of every world of the reset screen: the calls in flight are
    the two the handlers make, each with its own continuation; the stored
    token is [null] or the [resetToken] prop, the latter only after a
    verification; and every [resetPassword] call made so far carried that
    token and came after a verification. *)
Definition accounted (resetToken : jsstring)
    (h : list (Label (OTPVerification.component resetToken)))
    (w : World (OTPVerification.component resetToken)) : Prop :=
  (forall c k, In (c, k) (inflight w) ->
     (k = OTPVerification.afterVerifyOTP resetToken /\
      exists o, c = verifyOTP resetToken o) \/
     (k = OTPVerification.afterResetPassword /\
      exists t p, c = resetPassword t p)) /\
  (OTPVerification.verificationToken (comp w) = None \/
   (OTPVerification.verificationToken (comp w) = Some resetToken /\
    verified h)) /\
  (forall t p, In (resetPassword t p) (issued w) ->
     t = Some resetToken /\ verified h).

Module SampleRun.
Import OTPVerification.

Definition screen : Component := component Sample.resetToken.

(** The reset screen just after the code was submitted. *)
Definition verifying : World screen :=
  @Build_World screen
    (setIsSubmitting true Sample.otpTyped)
    [(verifyOTP Sample.resetToken (str "123456"),
      afterVerifyOTP Sample.resetToken)]
    [verifyOTP Sample.resetToken (str "123456")]
    [].

(** A whole session, newest label first: the code is typed and
    submitted, the service accepts it, a password is typed twice and
    submitted. *)
Definition session : list (Label screen) :=
  [ UI screen submit;
    UI screen (changeConfirmPassword Sample.strong);
    UI screen (changeNewPassword Sample.strong);
    Settle screen (verifyOTP Sample.resetToken (str "123456"))
      (Resolved (Some Sample.serverToken));
    UI screen submit;
    UI screen (changeOtp (str "123456")) ].

(** The settings form just after a change was submitted. *)
Definition updating : World (Settings.component Sample.validate) :=
  @Build_World (Settings.component Sample.validate)
    (Settings.setPasswordError []
       (Settings.setIsUpdatingPassword true
          (Sample.filled Sample.strong (str "Abcdef1?")
             (str "Abcdef1?"))))
    [(changePassword Sample.strong (str "Abcdef1?"),
      Settings.afterChangePassword)]
    [changePassword Sample.strong (str "Abcdef1?")]
    [].

(** The reset screen with the password form on screen. *)
Definition accepted : World screen :=
  @Build_World screen Sample.otpAccepted []
    [verifyOTP Sample.resetToken (str "123456")] [].

(** The reset screen at the end of [SampleRun.session]. *)
Definition resetting : World screen :=
  @Build_World screen
    (setIsSubmitting true
       (Sample.passwordsTyped Sample.strong Sample.strong))
    [(resetPassword (Some Sample.resetToken) Sample.strong,
      afterResetPassword)]
    [verifyOTP Sample.resetToken (str "123456");
     resetPassword (Some Sample.resetToken) Sample.strong]
    [].
End SampleRun.


(* ================================================================== *)
(** ** Further notions, for the rest of the two components *)

(** The delays of the [setTimeout(onBack, ms)] calls among what the reset
    screen signalled, oldest first. *)
Definition scheduled (sigs : list OTPVerification.Signal) : list N :=
  flat_map (fun s => match s with
                     | OTPVerification.setTimeout_onBack ms => [ms]
                     | OTPVerification.onBack => []
                     end) sigs.

Definition resolved_reset (C : Component) (l : Label C) : bool :=
  match l with
  | Settle _ (resetPassword _ _) (Resolved _) => true
  | _ => false
  end.

(** How many [resetPassword] calls have resolved in a history. *)
Definition resets_resolved (C : Component) (h : list (Label C)) : nat :=
  List.length (filter (@resolved_reset C) h).

Definition is_resetPassword (c : Call) : Prop :=
  exists t p, c = resetPassword t p.

(** The alerts, the save button and the checklist of
    [renderSecuritySection] (lines 467-538). *)
Module SecuritySection.
Import Validators Settings.

Record View := {
  errorAlert : option jsstring;
  successAlert : option jsstring;
  saveDisabled : bool;
  requirements : Requirements
}.

Definition alert (text : jsstring) : option jsstring :=
  if truthy text then Some text else None.

Definition render (s : State) : View :=
  {| errorAlert := alert (passwordError s);
     successAlert := alert (passwordSuccess s);
     saveDisabled := isUpdatingPassword s;
     requirements := requirementItems (newPassword (passwordData s)) |}.

(** [passwordData[name]], the [value] of the input called [name]. *)
Definition value (name : Name) (d : PasswordData) : jsstring :=
  match name with
  | nameCurrentPassword => currentPassword d
  | nameNewPassword => newPassword d
  | nameConfirmPassword => confirmPassword d
  end.

End SecuritySection.


(** More sample states, for the properties beyond the claims. *)
Module SampleMore.
Import OTPVerification.

(** The reset screen mounted with an empty [resetToken]. *)
Definition blankScreen : Component := component [].

(** ... after a code was typed, submitted and accepted by the service. *)
Definition blankAccepted : World blankScreen :=
  @Build_World blankScreen
    (setIsSubmitting false
       (setError None
          (setVerificationToken (Some [])
             (setIsSubmitting true Sample.otpTyped))))
    [] [verifyOTP [] (str "123456")] [].

Definition blankSession : list (Label blankScreen) :=
  [ Settle blankScreen (verifyOTP [] (str "123456"))
      (Resolved (Some Sample.serverToken));
    UI blankScreen submit;
    UI blankScreen (changeOtp (str "123456")) ].

(** A rejection whose response carries a message. *)
Definition invalidOtp : Failure :=
  {| response_data_message := Some (str "Invalid OTP");
     error_message := Some (str "Request failed with status code 400") |}.

(** A rejection without a response, as when the network is down. *)
Definition networkError : Failure :=
  {| response_data_message := None;
     error_message := Some (str "Network Error") |}.

(** Passwords that did not match at a first submit, then corrected. *)
Definition corrected : State :=
  setConfirmPassword Sample.strong
    (state (handlePasswordReset
              (Sample.passwordsTyped Sample.strong Sample.weak))).

(** The labels that lead from [SampleRun.accepted] to
    [SampleRun.resetting], newest first. *)
Definition typing : list (Label SampleRun.screen) :=
  [ UI SampleRun.screen submit;
    UI SampleRun.screen (changeConfirmPassword Sample.strong);
    UI SampleRun.screen (changeNewPassword Sample.strong) ].

(** The labels that lead to [SampleRun.accepted], newest first. *)
Definition verification : list (Label SampleRun.screen) :=
  [ Settle SampleRun.screen (verifyOTP Sample.resetToken (str "123456"))
      (Resolved (Some Sample.serverToken));
    UI SampleRun.screen submit;
    UI SampleRun.screen (changeOtp (str "123456")) ].

(** [SampleRun.session] followed by the success of its reset. *)
Definition completed : list (Label SampleRun.screen) :=
  Settle SampleRun.screen
    (resetPassword (Some Sample.resetToken) Sample.strong) (Resolved None)
  :: SampleRun.session.

(** The reset screen at the end of [completed]. *)
Definition done : World SampleRun.screen :=
  @Build_World SampleRun.screen
    (setIsSubmitting false
       (setMessage (Some passwordResetSuccessfully)
          (comp SampleRun.resetting)))
    []
    (issued SampleRun.resetting)
    [setTimeout_onBack 3000].



End SampleMore.


(* ================================================================== *)
(** ** Settings: the form data and [handleInputChange] *)

Module FormData.

(** The values [formData] holds: strings, booleans and one nested object.
    An object is the list of its own properties in insertion order.  The
    order in which JavaScript enumerates integer-like keys is not kept;
    nothing below depends on enumeration order. *)
#[local] Unset Elimination Schemes.
Inductive Value :=
| VString (s : jsstring)
| VBool (b : bool)
| VObject (properties : list (jsstring * Value))
| VUndefined.
#[local] Set Elimination Schemes.

Definition Object := list (jsstring * Value).

(** [o[key]] *)
Fixpoint lookup (key : jsstring) (o : Object) : Value :=
  match o with
  | [] => VUndefined
  | (k, v) :: rest => if strict_eq k key then v else lookup key rest
  end.

(** [{...o, [key]: v}] *)
Fixpoint assign (key : jsstring) (v : Value) (o : Object) : Object :=
  match o with
  | [] => [(key, v)]
  | (k, x) :: rest =>
      if strict_eq k key then (k, v) :: rest
      else (k, x) :: assign key v rest
  end.

Fixpoint digits (d : Decimal.uint) : jsstring :=
  match d with
  | Decimal.Nil => []
  | Decimal.D0 d => 48%N :: digits d
  | Decimal.D1 d => 49%N :: digits d
  | Decimal.D2 d => 50%N :: digits d
  | Decimal.D3 d => 51%N :: digits d
  | Decimal.D4 d => 52%N :: digits d
  | Decimal.D5 d => 53%N :: digits d
  | Decimal.D6 d => 54%N :: digits d
  | Decimal.D7 d => 55%N :: digits d
  | Decimal.D8 d => 56%N :: digits d
  | Decimal.D9 d => 57%N :: digits d
  end.

(** [String(i)] for an index. *)
Definition decimal (i : nat) : jsstring := digits (Nat.to_uint i).

Fixpoint indexed (i : nat) (s : jsstring) : Object :=
  match s with
  | [] => []
  | c :: rest => (decimal i, VString [c]) :: indexed (S i) rest
  end.

(** The own enumerable properties that [{...v}] copies: those of an
    object, the indexed code units of a string, none otherwise. *)
Definition spread (v : Value) : Object :=
  match v with
  | VObject properties => properties
  | VString s => indexed 0 s
  | VBool _ | VUndefined => []
  end.

(** [name.includes('.')] *)
Definition includes_dot (name : jsstring) : bool :=
  existsb (N.eqb 46) name.

(** [name.split('.')] *)
Fixpoint split_dot (name : jsstring) : list jsstring :=
  match name with
  | [] => [[]]
  | c :: rest =>
      if N.eqb c 46 then [] :: split_dot rest
      else match split_dot rest with
           | segment :: segments => (c :: segment) :: segments
           | [] => [[c]]
           end
  end.

(** [e.target], as far as the handler reads it. *)
Record Target := {
  name : jsstring;
  value : jsstring;
  type : jsstring;
  checked : bool
}.

(** [type === 'checkbox' ? checked : value] *)
Definition entry (t : Target) : Value :=
  if strict_eq (type t) (str "checkbox") then VBool (checked t)
  else VString (value t).

(** [handleInputChange] (lines 258-281): the [setTheme] calls it makes and
    the [formData] it leaves.  A name that includes a dot always splits
    into at least two parts, so the last branch of the [match] is never
    taken. *)
Definition handleInputChange (t : Target) (prev : Object)
  : list jsstring * Object :=
  let themes :=
    if strict_eq (name t) (str "theme") then [value t] else [] in
  if includes_dot (name t) then
    match split_dot (name t) with
    | parent :: child :: _ =>
        (themes,
         assign parent
           (VObject (assign child (entry t) (spread (lookup parent prev))))
           prev)
    | _ => (themes, prev)
    end
  else (themes, assign (name t) (entry t) prev).

(** The initial [formData] (lines 226-238), given what the contexts
    provide: [currentUser?.username], [currentUser?.email] and
    [currentTheme]. *)
Definition initial (username email : option jsstring) (currentTheme : Value)
  : Object :=
  [ (str "username", VString (or_else username []));
    (str "email", VString (or_else email []));
    (str "bio", VString []);
    (str "theme", currentTheme);
    (str "language", VString (str "javascript"));
    (str "fontSize", VString (str "14"));
    (str "notifications",
     VObject [ (str "email", VBool true);
               (str "push", VBool false);
               (str "collaboration", VBool true) ]) ].

(** The [name] and [type] of the inputs that the sections render with
    [onChange={handleInputChange}]. *)
Definition inputs : list (jsstring * jsstring) :=
  [ (str "username", str "text");
    (str "email", str "email");
    (str "bio", str "textarea");
    (str "notifications.email", str "checkbox");
    (str "notifications.push", str "checkbox");
    (str "notifications.collaboration", str "checkbox");
    (str "theme", str "select-one");
    (str "language", str "select-one");
    (str "fontSize", str "select-one") ].

Definition keys (o : Object) : list jsstring := map fst o.

(** The layout of the initial [formData]: its seven keys, the last one an
    object with the three notification flags. *)
Definition shaped (o : Object) : Prop :=
  keys o = keys (initial None None VUndefined) /\
  exists flags,
    lookup (str "notifications") o = VObject flags /\
    keys flags = [str "email"; str "push"; str "collaboration"].

(** The push-notification checkbox being ticked. *)
Definition pushTicked : Target :=
  {| name := str "notifications.push"; value := str "on";
     type := str "checkbox"; checked := true |}.

(** The theme select being set to dark. *)
Definition darkChosen : Target :=
  {| name := str "theme"; value := str "dark";
     type := str "select-one"; checked := false |}.

(** The form data of a signed-in user under the light theme. *)
Definition sample : Object :=
  initial (Some (str "ada")) (Some (str "ada@example.org"))
    (VString (str "light")).

End FormData.

(* ================================================================== *)
(** * Proofs *)

(** ** Facts about strings and character classes *)

Lemma strict_eq_iff (a b : jsstring) : strict_eq a b = true <-> a = b.
Proof.
  revert b; induction a as [|x a IH]; intros [|y b]; simpl;
    try (split; [discriminate | congruence]); try tauto.
  rewrite andb_true_iff, N.eqb_eq, IH. split.
  - intros [-> ->]; reflexivity.
  - intros H; injection H; auto.
Qed.

Lemma strict_eq_refl (a : jsstring) : strict_eq a a = true.
Proof. apply strict_eq_iff; reflexivity. Qed.

Lemma strict_eq_neq (a b : jsstring) : a <> b -> strict_eq a b = false.
Proof.
  intros H; destruct (strict_eq a b) eqn:E; [|reflexivity].
  apply strict_eq_iff in E; contradiction.
Qed.

Lemma truthy_false_iff (s : jsstring) : truthy s = false <-> s = [].
Proof. destruct s; simpl; split; congruence. Qed.

Lemma test_iff (cls : code_unit -> bool) (s : jsstring) :
  test cls s = true <-> exists c, In c s /\ cls c = true.
Proof. unfold test; apply existsb_exists. Qed.

Lemma in_range_iff (lo hi c : code_unit) :
  in_range lo hi c = true <-> (lo <= c /\ c <= hi)%N.
Proof.
  unfold in_range; rewrite andb_true_iff, !N.leb_le; tauto.
Qed.

Lemma one_of_iff (cs : list code_unit) (c : code_unit) :
  one_of cs c = true <-> In c cs.
Proof.
  unfold one_of; rewrite existsb_exists; split.
  - intros (x & Hx & E); apply N.eqb_eq in E; subst; assumption.
  - intros H; exists c; split; [assumption | apply N.eqb_refl].
Qed.

(* ================================================================== *)
(** ** At most one call in flight, for any component with a busy flag *)

Section OneInFlight.
Variable C : Component.
Variable busy : St C -> bool.

(** A handler that starts a call is only delivered while the flag is
    down, and raises it. *)
Hypothesis start_raises : forall e s r c k,
  fire C e s = Some r -> awaiting r = Some (c, k) ->
  busy s = false /\ busy (state r) = true.

(** A handler that starts no call leaves the flag alone. *)
Hypothesis others_keep : forall e s r,
  fire C e s = Some r -> awaiting r = None -> busy (state r) = busy s.

Lemma quiet_or_busy_step w l w' :
  quiet_or_busy busy w -> step w l w' -> quiet_or_busy busy w'.
Proof.
  intros [Hlen Hbusy] Hstep; unfold quiet_or_busy.
  destruct Hstep as [w e r Hfire | w before c k after o s sg Hin Hk]; simpl.
  - destruct (awaiting r) as [[c k]|] eqn:Ha; simpl.
    + destruct (start_raises _ _ Hfire Ha) as [Hdown Hup].
      destruct (inflight w) as [|p rest]; simpl.
      * split; [lia | intros _; exact Hup].
      * assert (busy (comp w) = true) by (apply Hbusy; discriminate).
        congruence.
    + rewrite app_nil_r, (others_keep _ _ Hfire Ha). split; assumption.
  - rewrite Hin, length_app in Hlen; simpl in Hlen.
    destruct before; destruct after; simpl in *; try lia.
    split; [lia | congruence].
Qed.

Lemma quiet_or_busy_reach h w : reach h w -> quiet_or_busy busy w.
Proof.
  induction 1 as [|h w l w' _ IH Hstep].
  - split; simpl; [lia | congruence].
  - exact (quiet_or_busy_step IH Hstep).
Qed.
End OneInFlight.

(* ================================================================== *)
(** ** The password policy *)

Section Policy.
Import Validators.

Lemma lowercase_iff p :
  test lowercase p = true <-> exists c, In c p /\ (97 <= c /\ c <= 122)%N.
Proof.
  rewrite test_iff; split; intros (c & Hc & H); exists c; split; trivial;
    apply (in_range_iff 97%N 122%N c); exact H.
Qed.

Lemma uppercase_iff p :
  test uppercase p = true <-> exists c, In c p /\ (65 <= c /\ c <= 90)%N.
Proof.
  rewrite test_iff; split; intros (c & Hc & H); exists c; split; trivial;
    apply (in_range_iff 65%N 90%N c); exact H.
Qed.

Lemma digit_iff p :
  test digit p = true <-> exists c, In c p /\ (48 <= c /\ c <= 57)%N.
Proof.
  rewrite test_iff; split; intros (c & Hc & H); exists c; split; trivial;
    apply (in_range_iff 48%N 57%N c); exact H.
Qed.

Lemma special_iff p :
  test special p = true <-> exists c, In c p /\ In c specialChars.
Proof.
  rewrite test_iff; split; intros (c & Hc & H); exists c; split; trivial;
    apply one_of_iff; exact H.
Qed.

Lemma isValid_flags ruleMessage p :
  isValid (validatePassword ruleMessage p)
  = forallb (fun b => b) (flags (requirementItems p)).
Proof.
  unfold validatePassword, failedRule, rules, flags, requirementItems.
  cbn [find passes atLeast8 oneLowercase oneUppercase oneNumber oneSpecial
       forallb].
  destruct (8 <=? List.length p), (test lowercase p), (test uppercase p),
    (test digit p), (test special p); reflexivity.
Qed.

(** C2. A password is reported valid exactly when it has at least eight
    code units, a lowercase letter a-z, an uppercase letter A-Z, a digit
    0-9 and a character of the special set.  The checklist exposes one
    flag per rule, each deciding its own rule whatever the others say,
    and the verdict is the conjunction of the five flags. *)
Theorem validatePassword_policy (ruleMessage : RuleId -> jsstring)
    (p : jsstring) :
  (isValid (validatePassword ruleMessage p) = true <-> meets_policy p) /\
  (atLeast8 (requirementItems p) = true <-> (8 <= List.length p)%nat) /\
  (oneLowercase (requirementItems p) = true <->
     exists c, In c p /\ (97 <= c /\ c <= 122)%N) /\
  (oneUppercase (requirementItems p) = true <->
     exists c, In c p /\ (65 <= c /\ c <= 90)%N) /\
  (oneNumber (requirementItems p) = true <->
     exists c, In c p /\ (48 <= c /\ c <= 57)%N) /\
  (oneSpecial (requirementItems p) = true <->
     exists c, In c p /\ In c specialChars) /\
  isValid (validatePassword ruleMessage p)
  = forallb (fun b => b) (flags (requirementItems p)).
Proof.
  assert (Hlen : (8 <=? List.length p) = true <-> (8 <= List.length p)%nat)
    by apply Nat.leb_le.
  split; [|repeat split; simpl;
            try apply Hlen; try apply lowercase_iff;
            try apply uppercase_iff; try apply digit_iff;
            try apply special_iff; try apply isValid_flags].
  rewrite isValid_flags; unfold flags, requirementItems, meets_policy.
  simpl. rewrite !andb_true_iff, Hlen, lowercase_iff, uppercase_iff,
    digit_iff, special_iff. tauto.
Qed.

(** The rows of the spec's table, run through the validator. *)
Example table_rows :
  map (fun p => isValid (validatePassword checklistLabel p))
    (map str ["longenough1A!"; "alllowercase1!"; "NOLOWER1!"; "NoNumber!";
              "NoSpecial1A"]%string)
  = [true; false; false; false; false].
Proof. reflexivity. Qed.

(** The row [short1!A] has eight code units and one character of each
    kind. *)
Example table_row_short :
  List.length (str "short1!A") = 8%nat /\
  isValid (validatePassword checklistLabel (str "short1!A")) = true.
Proof. split; reflexivity. Qed.
End Policy.

(* ================================================================== *)
(** ** The handlers of the reset flow *)

Section ResetFlow.
Import OTPVerification.

(** C4. When the new password and its confirmation differ,
    [handlePasswordReset] sets the error to the mismatch message, shows
    it, and awaits nothing: [resetPassword] is not called. *)
Theorem handlePasswordReset_mismatch (s : State) :
  newPassword s <> confirmPassword s ->
  called (handlePasswordReset s) = [] /\
  awaiting (handlePasswordReset s) = None /\
  error (state (handlePasswordReset s)) = Some passwordsDoNotMatch /\
  errorAlert (render (state (handlePasswordReset s)))
  = Some passwordsDoNotMatch.
Proof.
  intros H. unfold handlePasswordReset, called.
  rewrite (strict_eq_neq H). simpl. repeat split; reflexivity.
Qed.

Lemma handlePasswordReset_mismatch_witness :
  Sample.strong <> Sample.weak /\
  called (handlePasswordReset (Sample.passwordsTyped Sample.strong Sample.weak))
  = [].
Proof.
  assert (H : Sample.strong <> Sample.weak) by (vm_compute; discriminate).
  split; [exact H|].
  exact (proj1 (@handlePasswordReset_mismatch
                  (Sample.passwordsTyped Sample.strong Sample.weak) H)).
Defined.

(** C10. When the new password equals its confirmation,
    [handlePasswordReset] calls [resetPassword] with the stored token and
    that password, whatever the password is: no policy rule is consulted. *)
Theorem handlePasswordReset_no_policy (s : State) :
  newPassword s = confirmPassword s ->
  called (handlePasswordReset s)
  = [resetPassword (verificationToken s) (newPassword s)] /\
  isSubmitting (state (handlePasswordReset s)) = true /\
  error (state (handlePasswordReset s)) = error s.
Proof.
  intros H. unfold handlePasswordReset, called.
  rewrite H, strict_eq_refl. simpl. repeat split; reflexivity.
Qed.

Lemma handlePasswordReset_no_policy_witness :
  Validators.isValid (Sample.validate Sample.weak) = false /\
  called (handlePasswordReset (Sample.passwordsTyped Sample.weak Sample.weak))
  = [resetPassword (Some Sample.resetToken) Sample.weak].
Proof.
  split; [reflexivity|].
  exact (proj1 (@handlePasswordReset_no_policy
                  (Sample.passwordsTyped Sample.weak Sample.weak)
                  eq_refl)).
Defined.
End ResetFlow.

(* ================================================================== *)
(** ** The stored verification token *)

Section VerificationToken.
Import OTPVerification.

(** C1, as stated, fails: the service answers with its own token, and the
    component stores something else. *)
Lemma stored_token_is_not_the_returned_one :
  called (handleVerifyOTP Sample.resetToken Sample.otpTyped)
  = [verifyOTP Sample.resetToken (str "123456")] /\
  verificationToken
    (fst (settle (Resolved (Some Sample.serverToken))
            (handleVerifyOTP Sample.resetToken Sample.otpTyped)))
  <> Some Sample.serverToken.
Proof. split; [reflexivity | vm_compute; discriminate]. Qed.
End VerificationToken.

(* ================================================================== *)
(** ** The handlers of the change-password flow *)

Section ChangePasswordFlow.
Import Validators Settings.
Variable validatePassword : jsstring -> Validation.

Lemma handlePasswordUpdate_cases (s : State) :
  let d := passwordData s in
  let r := handlePasswordUpdate validatePassword s in
  (currentPassword d = [] /\ r = stopWith currentPasswordRequired s) \/
  (currentPassword d <> [] /\
   isValid (validatePassword (newPassword d)) = false /\
   r = stopWith (message (validatePassword (newPassword d))) s) \/
  (currentPassword d <> [] /\
   isValid (validatePassword (newPassword d)) = true /\
   newPassword d <> confirmPassword d /\
   r = stopWith newPasswordsDoNotMatch s) \/
  (currentPassword d <> [] /\
   isValid (validatePassword (newPassword d)) = true /\
   newPassword d = confirmPassword d /\
   currentPassword d = newPassword d /\
   r = stopWith mustBeDifferent s) \/
  (currentPassword d <> [] /\
   isValid (validatePassword (newPassword d)) = true /\
   newPassword d = confirmPassword d /\
   currentPassword d <> newPassword d /\
   called r = [changePassword (currentPassword d) (newPassword d)] /\
   awaiting r
   = Some (changePassword (currentPassword d) (newPassword d),
           afterChangePassword) /\
   state r = setPasswordError [] (setIsUpdatingPassword true s)).
Proof.
  intros d r; subst d r; unfold handlePasswordUpdate.
  destruct (truthy (currentPassword (passwordData s))) eqn:Ht; simpl.
  2:{ left; split; [apply truthy_false_iff; exact Ht | reflexivity]. }
  assert (Hne : currentPassword (passwordData s) <> []).
  { intros E; rewrite E in Ht; discriminate. }
  right.
  destruct (isValid (validatePassword (newPassword (passwordData s))))
    eqn:Hv; simpl.
  2:{ left; repeat split; trivial. }
  right.
  destruct (strict_eq (newPassword (passwordData s))
              (confirmPassword (passwordData s))) eqn:Hc; simpl.
  2:{ left; repeat split; trivial.
      intros E; apply strict_eq_iff in E; congruence. }
  apply strict_eq_iff in Hc. right.
  destruct (strict_eq (currentPassword (passwordData s))
              (newPassword (passwordData s))) eqn:Hn; simpl.
  - apply strict_eq_iff in Hn. left; repeat split; trivial.
  - right; repeat split; trivial.
    intros E; apply strict_eq_iff in E; congruence.
Qed.

(** C3, amended. When the current and the new password are the same
    string, [handlePasswordUpdate] calls nothing; the error it reports is
    the no-op message whenever the current password is not empty, the
    validator accepts the new one and the confirmation matches it. *)
Theorem handlePasswordUpdate_same_password (s : State) :
  currentPassword (passwordData s) = newPassword (passwordData s) ->
  called (handlePasswordUpdate validatePassword s) = [] /\
  awaiting (handlePasswordUpdate validatePassword s) = None /\
  (currentPassword (passwordData s) <> [] ->
   isValid (validatePassword (newPassword (passwordData s))) = true ->
   newPassword (passwordData s) = confirmPassword (passwordData s) ->
   passwordError (state (handlePasswordUpdate validatePassword s))
   = mustBeDifferent).
Proof.
  intros Hsame.
  pose proof (handlePasswordUpdate_cases s) as H; cbv zeta in H.
  destruct H as [(Hc & E) | [(Hc & Hv & E) | [(Hc & Hv & Hm & E)
    | [(Hc & Hv & Hm & Hs & E) | (Hc & Hv & Hm & Hd & _)]]]];
    [| | | |contradiction];
    rewrite E; unfold called, stopWith; simpl;
    (split; [reflexivity | split; [reflexivity|]]);
    intros Hc' Hv' Hm'; try contradiction; try congruence.
Qed.

(** Each local check of [handlePasswordUpdate] stops it before the call
    and leaves the three fields as entered. *)
Lemma handlePasswordUpdate_local_failure (s : State) :
  fails_locally validatePassword (passwordData s) ->
  called (handlePasswordUpdate validatePassword s) = [] /\
  awaiting (handlePasswordUpdate validatePassword s) = None /\
  passwordData (state (handlePasswordUpdate validatePassword s))
  = passwordData s.
Proof.
  intros Hf.
  pose proof (handlePasswordUpdate_cases s) as H; cbv zeta in H.
  destruct H as [(Hc & E) | [(Hc & Hv & E) | [(Hc & Hv & Hm & E)
    | [(Hc & Hv & Hm & Hs & E) | (Hc & Hv & Hm & Hd & _)]]]].
  1-4: rewrite E; unfold called, stopWith; simpl; repeat split.
  exfalso. destruct Hf as [F | [F | [F | F]]]; congruence.
Qed.

(** What settles a [changePassword] call empties the three fields, on
    success and on failure alike, whatever was typed in the meantime. *)
Lemma afterChangePassword_clears (o : Outcome) (s : State) :
  passwordData (fst (afterChangePassword o s)) = emptyPasswordData.
Proof. destruct o; reflexivity. Qed.
End ChangePasswordFlow.

(** C3, as stated, fails: with the same string as current and as new
    password the reported error is that of an earlier check whenever one
    fails, here the mismatch with the confirmation and, for any validator,
    the missing current password. *)
Lemma same_password_other_error :
  (let s := Sample.filled Sample.strong Sample.strong (str "Abcdef1?") in
   Settings.currentPassword (Settings.passwordData s)
   = Settings.newPassword (Settings.passwordData s) /\
   Settings.passwordError
     (state (Settings.handlePasswordUpdate Sample.validate s))
   = Settings.newPasswordsDoNotMatch /\
   Settings.newPasswordsDoNotMatch <> Settings.mustBeDifferent) /\
  (forall validatePassword,
   Settings.passwordError
     (state (Settings.handlePasswordUpdate validatePassword
               (Sample.filled [] [] [])))
   = Settings.currentPasswordRequired /\
   Settings.currentPasswordRequired <> Settings.mustBeDifferent).
Proof.
  split; [|intros v]; repeat split; try reflexivity;
    vm_compute; discriminate.
Qed.

Lemma handlePasswordUpdate_same_password_witness :
  called (Settings.handlePasswordUpdate Sample.validate
            (Sample.filled Sample.strong Sample.strong Sample.strong)) = [] /\
  Settings.passwordError
    (state (Settings.handlePasswordUpdate Sample.validate
              (Sample.filled Sample.strong Sample.strong Sample.strong)))
  = Settings.mustBeDifferent.
Proof.
  pose proof (@handlePasswordUpdate_same_password Sample.validate
                (Sample.filled Sample.strong Sample.strong Sample.strong)
                eq_refl) as (Hcalled & _ & Herr).
  split; [exact Hcalled|].
  apply Herr; [vm_compute; discriminate | reflexivity | reflexivity].
Defined.

(* ================================================================== *)
(** ** Local failures and the entered fields *)

(** C6. In both flows a local validation failure (mismatch with the
    confirmation, a new password the validator rejects, a new password
    equal to the current one, a missing current password) ends the handler
    before any call and leaves every entered field as it was. *)
Theorem local_failures_keep_fields
    (validatePassword : jsstring -> Validators.Validation) :
  (forall s : OTPVerification.State,
     OTPVerification.newPassword s <> OTPVerification.confirmPassword s ->
     called (OTPVerification.handlePasswordReset s) = [] /\
     entered (state (OTPVerification.handlePasswordReset s)) = entered s) /\
  (forall s : Settings.State,
     fails_locally validatePassword (Settings.passwordData s) ->
     called (Settings.handlePasswordUpdate validatePassword s) = [] /\
     Settings.passwordData
       (state (Settings.handlePasswordUpdate validatePassword s))
     = Settings.passwordData s).
Proof.
  split; intros s H.
  - unfold OTPVerification.handlePasswordReset, called.
    rewrite (strict_eq_neq H); simpl. split; reflexivity.
  - destruct (@handlePasswordUpdate_local_failure validatePassword s H)
      as (Hc & _ & Hd).
    split; assumption.
Qed.

Lemma local_failures_keep_fields_witness :
  entered (state (OTPVerification.handlePasswordReset
                    (Sample.passwordsTyped Sample.strong Sample.weak)))
  = (str "123456", Sample.strong, Sample.weak) /\
  Settings.passwordData
    (state (Settings.handlePasswordUpdate Sample.validate
              (Sample.filled Sample.strong Sample.weak Sample.weak)))
  = {| Settings.currentPassword := Sample.strong;
       Settings.newPassword := Sample.weak;
       Settings.confirmPassword := Sample.weak |}.
Proof.
  destruct (local_failures_keep_fields Sample.validate) as [Hreset Hupdate].
  split.
  - refine (proj2 (Hreset (Sample.passwordsTyped Sample.strong Sample.weak) _)).
    vm_compute; discriminate.
  - refine (proj2 (Hupdate
                     (Sample.filled Sample.strong Sample.weak Sample.weak) _)).
    right; left; reflexivity.
Defined.

(* ================================================================== *)
(** ** Clearing of the entered fields *)

(** C8, as stated, fails in the reset flow: the code stays in its input
    after [verifyOTP] succeeds, and both passwords stay in theirs after
    [resetPassword] succeeds, and after it fails. *)
Lemma reset_flow_keeps_fields :
  OTPVerification.otp
    (fst (settle (Resolved (Some Sample.serverToken))
            (OTPVerification.handleVerifyOTP Sample.resetToken
               Sample.otpTyped))) <> [] /\
  (forall o,
     let s := Sample.passwordsTyped Sample.strong Sample.strong in
     called (OTPVerification.handlePasswordReset s)
     = [resetPassword (Some Sample.resetToken) Sample.strong] /\
     OTPVerification.newPassword
       (fst (settle o (OTPVerification.handlePasswordReset s))) <> [] /\
     OTPVerification.confirmPassword
       (fst (settle o (OTPVerification.handlePasswordReset s))) <> []).
Proof.
  split; [vm_compute; discriminate|].
  intros o; split; [reflexivity|].
  destruct o; split; vm_compute; discriminate.
Qed.

(** C8, amended. In the change-password flow the three password fields
    are emptied when the [changePassword] call settles, on success and on
    failure.  In the reset flow neither handler writes the code or the
    password fields: they keep what was entered, before and after the
    call, on success and on failure. *)
Theorem fields_cleared_only_by_changePassword
    (resetToken : jsstring) (o : Outcome) :
  (forall s : Settings.State,
     Settings.passwordData (fst (Settings.afterChangePassword o s))
     = Settings.emptyPasswordData) /\
  (forall s : OTPVerification.State,
     entered (state (OTPVerification.handleVerifyOTP resetToken s))
     = entered s /\
     entered (fst (OTPVerification.afterVerifyOTP resetToken o s))
     = entered s /\
     entered (state (OTPVerification.handlePasswordReset s)) = entered s /\
     entered (fst (OTPVerification.afterResetPassword o s)) = entered s).
Proof.
  split; intros s.
  - apply afterChangePassword_clears.
  - repeat split; try (destruct o; reflexivity).
    unfold OTPVerification.handlePasswordReset.
    destruct (negb _); reflexivity.
Qed.

(* ================================================================== *)
(** ** Steps of a mounted component *)

Section Steps.
Variable C : Component.

Lemma step_ui_inv (w w' : World C) (e : Ev C) :
  step w (UI C e) w' ->
  exists r, fire C e (comp w) = Some r /\
    w' = {| comp := state r;
            inflight := inflight w ++ pending (awaiting r);
            issued := issued w ++ called r;
            signalled := signalled w ++ signals r |}.
Proof.
  intros H; inversion H; subst. eexists; split; [eassumption | reflexivity].
Qed.

Lemma step_settle_inv (w w' : World C) (c : Call) (o : Outcome) :
  step w (Settle C c o) w' ->
  exists before k after,
    inflight w = before ++ (c, k) :: after /\
    w' = {| comp := fst (k o (comp w));
            inflight := before ++ after;
            issued := issued w;
            signalled := signalled w ++ snd (k o (comp w)) |}.
Proof.
  intros H; inversion H as [|w0 before c0 k after o0 s sg Hin Hk]; subst.
  exists before, k, after. rewrite Hk. split; [assumption | reflexivity].
Qed.

Lemma step_ui_to (w w' : World C) (e : Ev C) r :
  fire C e (comp w) = Some r ->
  w' = {| comp := state r;
          inflight := inflight w ++ pending (awaiting r);
          issued := issued w ++ called r;
          signalled := signalled w ++ signals r |} ->
  step w (UI C e) w'.
Proof. intros Hr ->; apply step_ui; exact Hr. Defined.

Lemma step_settle_to (w w' : World C) (c : Call) (o : Outcome) k after :
  inflight w = (c, k) :: after ->
  w' = {| comp := fst (k o (comp w));
          inflight := after;
          issued := issued w;
          signalled := signalled w ++ snd (k o (comp w)) |} ->
  step w (Settle C c o) w'.
Proof.
  intros Hin ->.
  apply (@step_settle C w [] c k after o _ _ Hin).
  destruct (k o (comp w)); reflexivity.
Defined.

Lemma inflight_settled (w : World C) before c k after :
  inflight w = before ++ (c, k) :: after ->
  In (c, k) (inflight w) /\
  forall p, In p (before ++ after) -> In p (inflight w).
Proof.
  intros ->; split.
  - apply in_or_app; right; left; reflexivity.
  - intros p Hp; apply in_app_or in Hp; apply in_or_app.
    destruct Hp; [left | right; right]; assumption.
Qed.
End Steps.

(** Replays a history given label by label, oldest step first. *)
Ltac play :=
  lazymatch goal with
  | |- reach _ _ => unfold reach; play
  | |- run _ [] _ => apply run_here
  | |- run _ (_ :: _) _ =>
      eapply run_step;
      [ play
      | first [ eapply step_ui_to; [reflexivity | reflexivity]
              | eapply step_settle_to; [reflexivity | reflexivity] ] ]
  end.

(* ================================================================== *)
(** ** One submission at a time *)

Section Submitting.
Import OTPVerification.
Variable resetToken : jsstring.

Lemma submit_raises_isSubmitting e s r c k :
  dispatch resetToken e s = Some r -> awaiting r = Some (c, k) ->
  isSubmitting s = false /\ isSubmitting (state r) = true.
Proof.
  unfold dispatch, render; simpl.
  destruct e, (negb (truthy_opt (verificationToken s)));
    try discriminate;
    try (intros [= <-]; discriminate);
    destruct (isSubmitting s) eqn:Hs; try discriminate;
    intros [= <-].
  - intros _; split; reflexivity.
  - unfold handlePasswordReset.
    destruct (negb _); simpl; [discriminate | intros _; split; reflexivity].
Qed.

Lemma others_keep_isSubmitting e s r :
  dispatch resetToken e s = Some r -> awaiting r = None ->
  isSubmitting (state r) = isSubmitting s.
Proof.
  unfold dispatch, render; simpl.
  destruct e, (negb (truthy_opt (verificationToken s)));
    try discriminate;
    try (intros [= <-]; reflexivity);
    destruct (isSubmitting s) eqn:Hs; try discriminate;
    intros [= <-]; try discriminate.
  unfold handlePasswordReset.
  destruct (negb _); simpl; [intros _; assumption | discriminate].
Qed.

(** C7. In every world the reset screen can reach, at most one call is
    in flight; while one is, [isSubmitting] is set, the submit button is
    disabled, and a submission is not delivered: no step of the screen
    is a second submit. *)
Theorem one_submission_at_a_time h (w : World (component resetToken)) :
  reach h w ->
  (List.length (inflight w) <= 1)%nat /\
  (inflight w <> [] ->
   isSubmitting (comp w) = true /\
   submitDisabled (render (comp w)) = true /\
   fire (component resetToken) submit (comp w) = None /\
   forall w', ~ step w (UI (component resetToken) submit) w').
Proof.
  intros Hreach.
  destruct (quiet_or_busy_reach (C := component resetToken)
              isSubmitting submit_raises_isSubmitting
              others_keep_isSubmitting Hreach) as [Hlen Hbusy].
  split; [exact Hlen|]. intros Hne. specialize (Hbusy Hne).
  assert (Hfire : fire (component resetToken) submit (comp w) = None).
  { simpl; unfold dispatch, render; simpl.
    simpl in Hbusy; rewrite Hbusy.
    destruct (negb _); reflexivity. }
  repeat split; trivial.
  intros w' Hstep. apply step_ui_inv in Hstep.
  destruct Hstep as (r & Hr & _). congruence.
Qed.
End Submitting.

Lemma verifying_reached :
  reach [UI SampleRun.screen OTPVerification.submit;
         UI SampleRun.screen (OTPVerification.changeOtp (str "123456"))]
    SampleRun.verifying.
Proof.
  play.
Defined.

Lemma one_submission_at_a_time_witness :
  (List.length (inflight SampleRun.verifying) <= 1)%nat /\
  OTPVerification.submitDisabled
    (OTPVerification.render (comp SampleRun.verifying)) = true /\
  forall w', ~ step SampleRun.verifying
                 (UI SampleRun.screen OTPVerification.submit) w'.
Proof.
  destruct (one_submission_at_a_time verifying_reached) as [Hlen Hbusy].
  split; [exact Hlen|].
  destruct Hbusy as (_ & Hd & _ & Hno); [discriminate|].
  split; assumption.
Defined.

(* ================================================================== *)
(** ** The settings form as a running component *)

Section Updating.
Import Validators Settings.
Variable validatePassword : jsstring -> Validation.

Lemma update_raises_isUpdatingPassword e s r c k :
  dispatch validatePassword e s = Some r -> awaiting r = Some (c, k) ->
  isUpdatingPassword s = false /\ isUpdatingPassword (state r) = true.
Proof.
  destruct e as [name value|]; simpl.
  - intros [= <-]; discriminate.
  - unfold submitDisabled.
    destruct (isUpdatingPassword s) eqn:Hs; [discriminate|].
    intros [= <-] Ha. split; [reflexivity|].
    pose proof (handlePasswordUpdate_cases validatePassword s) as H.
    cbv zeta in H.
    destruct H as [(_ & E) | [(_ & _ & E) | [(_ & _ & _ & E)
      | [(_ & _ & _ & _ & E) | (_ & _ & _ & _ & _ & _ & E)]]]];
      rewrite E in *; try discriminate; reflexivity.
Qed.

Lemma handlePasswordChange_keeps_flag name value s :
  isUpdatingPassword (handlePasswordChange name value s)
  = isUpdatingPassword s.
Proof.
  unfold handlePasswordChange.
  destruct (truthy (passwordError s)), (truthy (passwordSuccess s));
    reflexivity.
Qed.

Lemma others_keep_isUpdatingPassword e s r :
  dispatch validatePassword e s = Some r -> awaiting r = None ->
  isUpdatingPassword (state r) = isUpdatingPassword s.
Proof.
  destruct e as [name value|]; simpl.
  - intros [= <-] _; apply handlePasswordChange_keeps_flag.
  - unfold submitDisabled.
    destruct (isUpdatingPassword s) eqn:Hs; [discriminate|].
    intros [= <-] Ha.
    pose proof (handlePasswordUpdate_cases validatePassword s) as H.
    cbv zeta in H.
    destruct H as [(_ & E) | [(_ & _ & E) | [(_ & _ & _ & E)
      | [(_ & _ & _ & _ & E) | (_ & _ & _ & _ & _ & E & _)]]]];
      rewrite E in *; try discriminate; simpl; assumption.
Qed.

(** The settings form likewise: one [changePassword] call at a time, the
    save button disabled meanwhile. *)
Lemma one_update_at_a_time h
    (w : World (component validatePassword)) :
  reach h w ->
  (List.length (inflight w) <= 1)%nat /\
  (inflight w <> [] -> submitDisabled (comp w) = true).
Proof.
  intros Hreach.
  exact (quiet_or_busy_reach (C := component validatePassword)
           isUpdatingPassword update_raises_isUpdatingPassword
           others_keep_isUpdatingPassword Hreach).
Qed.

Lemma inflight_afterChangePassword h
    (w : World (component validatePassword)) :
  reach h w ->
  forall c k, In (c, k) (inflight w) ->
    k = afterChangePassword /\
    exists current new, c = changePassword current new.
Proof.
  induction 1 as [|h w l w' _ IH Hstep]; [intros c k []|].
  destruct l as [e | c0 o].
  - apply step_ui_inv in Hstep. destruct Hstep as (r & Hr & ->).
    simpl. intros c k Hin. apply in_app_or in Hin.
    destruct Hin as [Hin | Hin]; [eauto|].
    destruct e as [name value|]; simpl in Hr.
    + injection Hr as <-. destruct Hin.
    + destruct (submitDisabled (comp w)); [discriminate|].
      injection Hr as <-.
      pose proof (handlePasswordUpdate_cases validatePassword (comp w))
        as H. cbv zeta in H.
      destruct H as [(_ & E) | [(_ & _ & E) | [(_ & _ & _ & E)
        | [(_ & _ & _ & _ & E) | (_ & _ & _ & _ & _ & E & _)]]]];
        rewrite E in Hin; simpl in Hin; try contradiction.
      destruct Hin as [[= <- <-] | []]. eauto.
  - apply step_settle_inv in Hstep.
    destruct Hstep as (before & k0 & after & Hin0 & ->).
    simpl. intros c k Hin.
    apply (IH c k), (proj2 (inflight_settled _ _ _ _ _ Hin0)), Hin.
Qed.

(** C5. Whenever a [changePassword] call in flight fails, the state
    right after holds the empty string in all three password fields,
    whatever had been typed while the call was out. *)
Theorem changePassword_failure_clears h
    (w w' : World (component validatePassword)) c err :
  reach h w ->
  step w (Settle (component validatePassword) c (Rejected err)) w' ->
  currentPassword (passwordData (comp w')) = [] /\
  newPassword (passwordData (comp w')) = [] /\
  confirmPassword (passwordData (comp w')) = [] /\
  exists current new, c = changePassword current new.
Proof.
  intros Hreach Hstep.
  apply step_settle_inv in Hstep.
  destruct Hstep as (before & k & after & Hin & ->).
  pose proof (proj1 (inflight_settled _ _ _ _ _ Hin)) as Hk.
  destruct (inflight_afterChangePassword Hreach _ _ Hk) as [-> Hc].
  simpl. repeat split; assumption.
Qed.
End Updating.

Lemma updating_reached :
  reach [UI (Settings.component Sample.validate) Settings.submit;
         UI (Settings.component Sample.validate)
            (Settings.change Settings.nameConfirmPassword (str "Abcdef1?"));
         UI (Settings.component Sample.validate)
            (Settings.change Settings.nameNewPassword (str "Abcdef1?"));
         UI (Settings.component Sample.validate)
            (Settings.change Settings.nameCurrentPassword Sample.strong)]
    SampleRun.updating.
Proof.
  play.
Defined.

Lemma changePassword_failure_clears_witness :
  exists w',
    step SampleRun.updating
      (Settle (Settings.component Sample.validate)
         (changePassword Sample.strong (str "Abcdef1?"))
         (Rejected Sample.anyFailure)) w' /\
    Settings.currentPassword (Settings.passwordData (comp w')) = [] /\
    Settings.newPassword (Settings.passwordData (comp w')) = [] /\
    Settings.confirmPassword (Settings.passwordData (comp w')) = [].
Proof.
  eassert (Hstep : step SampleRun.updating
                     (Settle (Settings.component Sample.validate)
                        (changePassword Sample.strong (str "Abcdef1?"))
                        (Rejected Sample.anyFailure)) _)
    by (eapply step_settle_to; reflexivity).
  eexists; split; [exact Hstep|].
  destruct (changePassword_failure_clears updating_reached Hstep)
    as (H1 & H2 & H3 & _).
  repeat split; assumption.
Defined.

(* ================================================================== *)
(** ** The reset screen as a running component *)

Section Verifying.
Import OTPVerification.
Variable resetToken : jsstring.

Local Abbreviation screen := (component resetToken).

Lemma verified_later (l : Label screen) h :
  verified h -> verified (l :: h).
Proof. intros (o & v & H); exists o, v; right; exact H. Qed.

Lemma accounted_weaken (l : Label screen) h (w w' : World screen) :
  accounted h w ->
  inflight w' = inflight w ->
  issued w' = issued w ->
  verificationToken (comp w') = verificationToken (comp w) ->
  accounted (l :: h) w'.
Proof.
  intros (Hfl & Htok & Hiss) Ef Ei Et. unfold accounted.
  rewrite Ef, Ei, Et. split; [exact Hfl|]. split.
  - destruct Htok as [? | [? ?]]; [left | right; split]; trivial.
    apply verified_later; assumption.
  - intros t p Hin. destruct (Hiss t p Hin) as [? ?].
    split; [|apply verified_later]; assumption.
Qed.

Lemma accounted_step (l : Label screen) h (w w' : World screen) :
  accounted h w -> step w l w' -> accounted (l :: h) w'.
Proof.
  intros Hacc Hstep. destruct l as [e | c o].
  - apply step_ui_inv in Hstep. destruct Hstep as (r & Hr & ->).
    simpl in Hr. unfold dispatch, render in Hr; simpl in Hr.
    destruct (truthy_opt (verificationToken (comp w))) eqn:Htruthy;
      simpl in Hr;
      destruct e; try discriminate;
      try (injection Hr as <-;
           eapply accounted_weaken;
           [exact Hacc | simpl; rewrite ?app_nil_r; reflexivity ..]);
      destruct (isSubmitting (comp w)); try discriminate;
      injection Hr as <-.
    + (* the password form is submitted *)
      pose proof Hacc as (Hfl & Htok & Hiss).
      destruct Htok as [E | [E Hv]];
        [rewrite E in Htruthy; discriminate|].
      unfold handlePasswordReset.
      destruct (negb _); simpl.
      * eapply accounted_weaken;
          [exact Hacc | simpl; rewrite ?app_nil_r; reflexivity ..].
      * split; [|split]; simpl.
        -- intros c k Hin. apply in_app_or in Hin.
           destruct Hin as [Hin | [[= <- <-] | []]]; [eauto|].
           right; split; eauto.
        -- right; split; [exact E | apply verified_later; exact Hv].
        -- intros t p Hin. apply in_app_or in Hin.
           destruct Hin as [Hin | [[= <- <-] | []]].
           ++ destruct (Hiss t p Hin); split;
                [|apply verified_later]; assumption.
           ++ split; [exact E | apply verified_later; exact Hv].
    + (* the code form is submitted *)
      destruct Hacc as (Hfl & Htok & Hiss).
      split; [|split]; simpl.
      * intros c k Hin. apply in_app_or in Hin.
        destruct Hin as [Hin | [[= <- <-] | []]]; [eauto|].
        left; split; eauto.
      * destruct Htok as [? | [? ?]]; [left | right; split]; trivial.
        apply verified_later; assumption.
      * intros t p Hin. apply in_app_or in Hin.
        destruct Hin as [Hin | [[=] | []]].
        destruct (Hiss t p Hin); split;
          [|apply verified_later]; assumption.
  - apply step_settle_inv in Hstep.
    destruct Hstep as (before & k & after & Hin & ->).
    destruct Hacc as (Hfl & Htok & Hiss).
    destruct (inflight_settled _ _ _ _ _ Hin) as [Hk Hrest].
    assert (Hiss' : forall t p, In (resetPassword t p) (issued w) ->
              t = Some resetToken /\
              verified (Settle screen c o :: h)).
    { intros t p Ht; destruct (Hiss t p Ht); split;
        [|apply verified_later]; assumption. }
    split; [intros c' k' H'; apply Hfl, Hrest; exact H' |].
    split; [|exact Hiss']. simpl.
    destruct (Hfl c k Hk) as [[-> (otp0 & ->)] | [-> (t & p & ->)]].
    + destruct o as [v | err]; simpl.
      * right; split; [reflexivity|].
        exists otp0, v; left; reflexivity.
      * destruct Htok as [? | [? ?]]; [left | right; split]; trivial.
        apply verified_later; assumption.
    + destruct o as [v | err]; simpl;
        (destruct Htok as [? | [? ?]]; [left | right; split]; trivial;
         apply verified_later; assumption).
Qed.

Lemma accounted_reach h (w : World screen) : reach h w -> accounted h w.
Proof.
  induction 1 as [|h w l w' _ IH Hstep].
  - split; [intros c k [] | split; [left; reflexivity | intros t p []]].
  - exact (accounted_step IH Hstep).
Qed.
End Verifying.

Lemma resetting_reached : reach SampleRun.session SampleRun.resetting.
Proof. unfold SampleRun.session; play. Defined.

(** C1, amended. After [verifyOTP] resolves, with whatever value, the
    stored token is the [resetToken] prop, and a reset submitted next
    passes that token as the first argument of [resetPassword].  On a
    mounted screen the stored token is never anything but [null] or that
    prop, and every [resetPassword] call made carries the prop. *)
Theorem stored_token_is_resetToken (resetToken : jsstring) :
  (forall verifyResponse s,
     let s' := fst (settle (Resolved verifyResponse)
                      (OTPVerification.handleVerifyOTP resetToken s)) in
     OTPVerification.verificationToken s' = Some resetToken /\
     forall p,
       called (OTPVerification.handlePasswordReset
                 (OTPVerification.setConfirmPassword p
                    (OTPVerification.setNewPassword p s')))
       = [resetPassword (Some resetToken) p]) /\
  (forall h (w : World (OTPVerification.component resetToken)),
     reach h w ->
     (OTPVerification.verificationToken (comp w) = None \/
      OTPVerification.verificationToken (comp w) = Some resetToken) /\
     forall t p, In (resetPassword t p) (issued w) -> t = Some resetToken).
Proof.
  split.
  - intros verifyResponse s; simpl. split; [reflexivity|]. intros p.
    unfold OTPVerification.handlePasswordReset, called; simpl.
    rewrite strict_eq_refl; reflexivity.
  - intros h w Hreach.
    destruct (accounted_reach Hreach) as (_ & Htok & Hiss). split.
    + destruct Htok as [E | [E _]]; [left | right]; exact E.
    + intros t p Hin. exact (proj1 (Hiss t p Hin)).
Qed.

Lemma stored_token_is_resetToken_witness :
  OTPVerification.verificationToken Sample.otpAccepted
  = Some Sample.resetToken /\
  (OTPVerification.verificationToken (comp SampleRun.resetting) = None \/
   OTPVerification.verificationToken (comp SampleRun.resetting)
   = Some Sample.resetToken).
Proof.
  destruct (stored_token_is_resetToken Sample.resetToken) as [Hnow Hlater].
  split.
  - exact (proj1 (Hnow (Some Sample.serverToken) Sample.otpTyped)).
  - exact (proj1 (Hlater _ _ resetting_reached)).
Defined.

(* ================================================================== *)
(** ** Going back *)

Lemma accepted_reached : reach SampleMore.verification SampleRun.accepted.
Proof. unfold SampleMore.verification; play. Defined.

Lemma accepted_to_resetting :
  run SampleRun.accepted SampleMore.typing SampleRun.resetting.
Proof. unfold SampleMore.typing; play. Defined.






(* ================================================================== *)
(** ** The screen under the [required] attributes *)

Section Required.
Import OTPVerification.
Variable resetToken : jsstring.

(** Whatever a browser delivers, [dispatch] delivers too, with the same
    outcome. *)
Lemma deliver_dispatch e (s : State) r :
  deliver resetToken e s = Some r -> dispatch resetToken e s = Some r.
Proof.
  unfold deliver. destruct e; trivial.
  destruct (requiredFilled s); [trivial | discriminate].
Qed.

Lemma browser_step (w w' : World (browser resetToken)) l :
  step w l w' -> step (widen w) (widen_label l) (widen w').
Proof.
  intros Hstep. destruct l as [e | c o].
  - apply step_ui_inv in Hstep. destruct Hstep as (r & Hr & ->).
    apply (@step_ui_to (component resetToken) (widen w) _ e r);
      [exact (deliver_dispatch _ _ Hr) | reflexivity].
  - apply step_settle_inv in Hstep.
    destruct Hstep as (before & k & after & Hin & ->).
    apply (@step_settle (component resetToken) (widen w) before c k after
             o (fst (k o (comp w))) (snd (k o (comp w))) Hin).
    exact (surjective_pairing (k o (comp w))).
Qed.

(** Every state the browser-driven screen reaches is a state the screen
    reaches under [dispatch]: what holds of all the latter holds of the
    former. *)
Lemma browser_reach h (w : World (browser resetToken)) :
  reach h w -> reach (map (@widen_label resetToken) h) (widen w).
Proof.
  induction 1 as [|h w l w' _ IH Hstep]; [apply run_here|].
  simpl. exact (run_step IH (browser_step Hstep)).
Qed.
End Required.

(* ================================================================== *)
(** * Further properties of the two components *)

(** ** Runs and the busy flag *)

Section Runs.
Variable C : Component.

Lemma run_reach h (w : World C) h' w' :
  reach h w -> run w h' w' -> reach (h' ++ h) w'.
Proof.
  intros Hreach Hrun. induction Hrun as [|h' w1 l w2 _ IH Hstep].
  - exact Hreach.
  - simpl. exact (run_step IH Hstep).
Qed.

Variable busy : St C -> bool.

Hypothesis mounts_idle : busy (mount C) = false.

Hypothesis others_keep : forall e s r,
  fire C e s = Some r -> awaiting r = None -> busy (state r) = busy s.

(** Whatever settles a call in flight lowers the flag. *)
Hypothesis settling_lowers : forall h w c k o,
  reach h w -> In (c, k) (inflight w) -> busy (fst (k o (comp w))) = false.

Lemma idle_means_down h (w : World C) :
  reach h w -> inflight w = [] -> busy (comp w) = false.
Proof.
  induction 1 as [|h w l w' Hreach IH Hstep]; [intros _; exact mounts_idle|].
  destruct l as [e | c o].
  - apply step_ui_inv in Hstep. destruct Hstep as (r & Hr & ->). simpl.
    intros Hnil. apply app_eq_nil in Hnil. destruct Hnil as [Hw Hp].
    destruct (awaiting r) eqn:Ha; [discriminate|].
    rewrite (others_keep _ _ Hr Ha). exact (IH Hw).
  - apply step_settle_inv in Hstep.
    destruct Hstep as (before & k & after & Hin & ->). simpl. intros _.
    apply (@settling_lowers h w c k o Hreach).
    exact (proj1 (inflight_settled _ _ _ _ _ Hin)).
Qed.
End Runs.

(* ================================================================== *)
(** ** The reset screen: flag, retry, and what follows a verification *)

Section ResetScreen.
Import OTPVerification.
Variable resetToken : jsstring.

Local Abbreviation screen := (component resetToken).

Lemma settling_lowers_isSubmitting h (w : World screen) c k o :
  reach h w -> In (c, k) (inflight w) ->
  isSubmitting (fst (k o (comp w))) = false.
Proof.
  intros Hreach Hin.
  destruct (accounted_reach Hreach) as (Hfl & _ & _).
  destruct (Hfl c k Hin) as [[-> _] | [-> _]]; destruct o; reflexivity.
Qed.

Lemma idle_screen h (w : World screen) :
  reach h w -> inflight w = [] -> isSubmitting (comp w) = false.
Proof.
  intros Hreach.
  refine (@idle_means_down screen isSubmitting eq_refl
            (@others_keep_isSubmitting resetToken) _ h w Hreach).
  intros h0 w0 c k o; apply settling_lowers_isSubmitting.
Qed.

Lemma busy_screen h (w : World screen) :
  reach h w ->
  (List.length (inflight w) <= 1)%nat /\
  (inflight w <> [] -> isSubmitting (comp w) = true).
Proof.
  intros Hreach.
  exact (quiet_or_busy_reach (C := screen) isSubmitting
           (@submit_raises_isSubmitting resetToken)
           (@others_keep_isSubmitting resetToken) Hreach).
Qed.

(** X1. On the reset screen the submit button is disabled exactly while a
    call is in flight: it is never left disabled once the call has
    settled, whether it succeeded or failed. *)
Theorem isSubmitting_iff_inflight h (w : World screen) :
  reach h w ->
  (submitDisabled (render (comp w)) = true <-> inflight w <> []).
Proof.
  intros Hreach. simpl. split.
  - intros Hflag Hnil. rewrite (idle_screen Hreach Hnil) in Hflag.
    discriminate.
  - apply (proj2 (busy_screen Hreach)).
Qed.

Lemma or_else_truthy v d : truthy d = true -> truthy (or_else v d) = true.
Proof.
  intros Hd. destruct v as [m|]; simpl; [|exact Hd].
  destruct (truthy m) eqn:Hm; assumption.
Qed.

Lemma shown_truthy m : truthy m = true -> shown (Some m) = Some m.
Proof. unfold shown; simpl; intros ->; reflexivity. Qed.

Lemma form_password_iff s :
  form (render s) = PasswordForm <-> truthy_opt (verificationToken s) = true.
Proof.
  unfold render; simpl. destruct (truthy_opt (verificationToken s)); simpl;
    split; congruence.
Qed.

Lemma fire_token e (s : State) (r : Ran State Signal) :
  fire screen e s = Some r ->
  verificationToken (state r) = verificationToken s.
Proof.
  change (fire screen e s) with (dispatch resetToken e s); unfold dispatch.
  destruct (form (render s)), e; try discriminate;
    try (intros [= <-]; reflexivity);
    destruct (submitDisabled (render s)); try discriminate; intros [= <-];
    try reflexivity.
  unfold handlePasswordReset; destruct (negb _); reflexivity.
Qed.

Lemma fire_called e (s : State) (r : Ran State Signal) :
  fire screen e s = Some r ->
  (awaiting r = None /\ called r = []) \/
  (form (render s) = OTPForm /\
   awaiting r = Some (verifyOTP resetToken (otp s),
                      afterVerifyOTP resetToken)) \/
  (form (render s) = PasswordForm /\
   newPassword s = confirmPassword s /\
   awaiting r = Some (resetPassword (verificationToken s) (newPassword s),
                      afterResetPassword)).
Proof.
  change (fire screen e s) with (dispatch resetToken e s); unfold dispatch.
  destruct (form (render s)) eqn:Hform;
    destruct e; try discriminate;
    try (intros [= <-]; left; split; reflexivity);
    destruct (submitDisabled (render s)); try discriminate; intros [= <-].
  - right; left; split; reflexivity.
  - unfold handlePasswordReset.
    destruct (strict_eq (newPassword s) (confirmPassword s)) eqn:E; simpl.
    + right; right. apply strict_eq_iff in E. repeat split; trivial.
    + left; split; reflexivity.
Qed.

Lemma fire_signals e (s : State) (r : Ran State Signal) :
  fire screen e s = Some r -> scheduled (signals r) = [].
Proof.
  change (fire screen e s) with (dispatch resetToken e s); unfold dispatch.
  destruct (form (render s));
    destruct e; try discriminate;
    try (intros [= <-]; reflexivity);
    destruct (submitDisabled (render s)); try discriminate; intros [= <-];
    try reflexivity.
  unfold handlePasswordReset; destruct (negb _); reflexivity.
Qed.

(** X2. When a call of the reset screen is rejected, the screen stays on
    the form it showed, keeps the stored token and everything entered,
    shows an error, has nothing left in flight, and its submit button is
    enabled again: a submit, which the browser delivers when the required
    inputs of the form are not empty, runs the handler of the same form
    once more. *)
Theorem rejection_allows_retry h (w w' : World screen) c err :
  reach h w ->
  step w (Settle screen c (Rejected err)) w' ->
  inflight w' = [] /\
  verificationToken (comp w') = verificationToken (comp w) /\
  entered (comp w') = entered (comp w) /\
  form (render (comp w')) = form (render (comp w)) /\
  errorAlert (render (comp w')) <> None /\
  submitDisabled (render (comp w')) = false /\
  deliver resetToken submit (comp w')
  = (if requiredFilled (comp w')
     then Some (match form (render (comp w)) with
                | OTPForm => handleVerifyOTP resetToken (comp w')
                | PasswordForm => handlePasswordReset (comp w')
                end)
     else None).
Proof.
  intros Hreach Hstep.
  destruct (busy_screen Hreach) as [Hlen _].
  destruct (accounted_reach Hreach) as (Hfl & _ & _).
  apply step_settle_inv in Hstep.
  destruct Hstep as (before & k & after & Hin & ->).
  pose proof (proj1 (inflight_settled _ _ _ _ _ Hin)) as Hk.
  rewrite Hin, length_app in Hlen; simpl in Hlen.
  assert (before = [] /\ after = []) as [-> ->]
    by (destruct before, after; simpl in Hlen; try lia; split; reflexivity).
  assert (Hshown : forall d, truthy d = true ->
            shown (Some (or_else (response_data_message err) d)) <> None).
  { intros d Hd. rewrite shown_truthy by (apply or_else_truthy; exact Hd).
    discriminate. }
  destruct (Hfl c k Hk) as [[-> _] | [-> _]]; simpl;
    (repeat split; trivial; [apply Hshown; reflexivity|]);
    unfold deliver, requiredFilled, dispatch, render;
    cbn [form submitDisabled setIsSubmitting setError verificationToken
         isSubmitting otp newPassword confirmPassword];
    destruct (negb (truthy_opt (verificationToken (comp w))));
    reflexivity.
Qed.

Lemma truthy_token_is_resetToken h (w : World screen) :
  reach h w -> truthy_opt (verificationToken (comp w)) = true ->
  verificationToken (comp w) = Some resetToken /\ truthy resetToken = true.
Proof.
  intros Hreach Ht.
  destruct (accounted_reach Hreach) as (_ & [E | [E _]] & _);
    rewrite E in Ht; [discriminate|]. split; assumption.
Qed.

Lemma resets_need_truthy_token h (w : World screen) :
  reach h w ->
  forall t p, In (resetPassword t p) (issued w) -> truthy resetToken = true.
Proof.
  induction 1 as [|h w l w' Hreach IH Hstep]; [intros t p []|].
  destruct l as [e | c o].
  - apply step_ui_inv in Hstep. destruct Hstep as (r & Hr & ->). simpl.
    intros t p Hin. apply in_app_or in Hin. destruct Hin as [Hin | Hin];
      [exact (IH t p Hin)|].
    unfold called in Hin.
    destruct (fire_called _ _ Hr) as [[Ha _] | [[_ Ha] | (Hform & _ & Ha)]];
      rewrite Ha in Hin; simpl in Hin.
    + destruct Hin.
    + destruct Hin as [[=] | []].
    + apply form_password_iff in Hform.
      exact (proj2 (truthy_token_is_resetToken Hreach Hform)).
  - apply step_settle_inv in Hstep.
    destruct Hstep as (before & k & after & _ & ->). exact IH.
Qed.

(** X3. With an empty [resetToken] the screen can never leave the code
    form: even after the service has accepted a code, the password form
    does not come up and no [resetPassword] call is ever made. *)
Theorem empty_resetToken_never_resets h (w : World screen) :
  resetToken = [] ->
  reach h w ->
  form (render (comp w)) = OTPForm /\
  forall t p, ~ In (resetPassword t p) (issued w).
Proof.
  intros Hempty Hreach. split.
  - destruct (form (render (comp w))) eqn:Hform; [reflexivity|].
    apply form_password_iff in Hform.
    destruct (truthy_token_is_resetToken Hreach Hform) as [_ Ht].
    rewrite Hempty in Ht; discriminate.
  - intros t p Hin.
    pose proof (resets_need_truthy_token Hreach t p Hin) as Ht.
    rewrite Hempty in Ht; discriminate.
Qed.

(** X4. When a [verifyOTP] call resolves, whatever it returns, the error
    is cleared, the submit button is enabled again, the code entered
    stays in its input, and the password form comes up, unless the
    [resetToken] prop is the empty string. *)
Theorem verification_opens_password_form h (w w' : World screen) o v :
  reach h w ->
  step w (Settle screen (verifyOTP resetToken o) (Resolved v)) w' ->
  error (comp w') = None /\
  errorAlert (render (comp w')) = None /\
  submitDisabled (render (comp w')) = false /\
  otp (comp w') = otp (comp w) /\
  (form (render (comp w')) = PasswordForm <-> resetToken <> []).
Proof.
  intros Hreach Hstep.
  destruct (accounted_reach Hreach) as (Hfl & _ & _).
  apply step_settle_inv in Hstep.
  destruct Hstep as (before & k & after & Hin & ->).
  pose proof (proj1 (inflight_settled _ _ _ _ _ Hin)) as Hk.
  destruct (Hfl _ k Hk) as [[-> _] | [_ (t & p & [=])]]. simpl.
  repeat split; trivial.
  - unfold render; simpl. destruct resetToken; simpl;
      [discriminate | intros _; discriminate].
  - unfold render; simpl. destruct resetToken; simpl;
      [intros H; contradiction H; reflexivity | reflexivity].
Qed.

Lemma token_kept h (w w' : World screen) l :
  reach h w -> step w l w' ->
  truthy_opt (verificationToken (comp w)) = true ->
  verificationToken (comp w') = verificationToken (comp w).
Proof.
  intros Hreach Hstep Ht. destruct l as [e | c o].
  - apply step_ui_inv in Hstep. destruct Hstep as (r & Hr & ->).
    exact (fire_token _ _ Hr).
  - destruct (truthy_token_is_resetToken Hreach Ht) as [E _].
    destruct (accounted_reach Hreach) as (Hfl & _ & _).
    apply step_settle_inv in Hstep.
    destruct Hstep as (before & k & after & Hin & ->).
    pose proof (proj1 (inflight_settled _ _ _ _ _ Hin)) as Hk.
    destruct (Hfl c k Hk) as [[-> _] | [-> _]]; destruct o; simpl;
      congruence.
Qed.

Lemma password_form_step h (w w' : World screen) l :
  reach h w -> step w l w' ->
  form (render (comp w)) = PasswordForm ->
  form (render (comp w')) = PasswordForm /\
  exists more, issued w' = issued w ++ more /\ Forall is_resetPassword more.
Proof.
  intros Hreach Hstep Hform. split.
  - apply form_password_iff. apply form_password_iff in Hform.
    rewrite (token_kept Hreach Hstep Hform). exact Hform.
  - destruct l as [e | c o].
    + apply step_ui_inv in Hstep. destruct Hstep as (r & Hr & ->). simpl.
      exists (@called State Signal r). split; [reflexivity|]. unfold called.
      destruct (fire_called _ _ Hr)
        as [[Ha _] | [[Hf _] | (_ & _ & Ha)]];
        [rewrite Ha; constructor | congruence |].
      rewrite Ha. repeat constructor. eexists; eexists; reflexivity.
    + apply step_settle_inv in Hstep.
      destruct Hstep as (before & k & after & _ & ->). simpl.
      exists []. rewrite app_nil_r. split; [reflexivity | constructor].
Qed.

(** X5. Once the password form is on screen it stays there: nothing the
    screen can do afterwards brings the code form back, and every call it
    makes from then on is a [resetPassword]; no code is verified again. *)
Theorem password_form_is_permanent h (w : World screen) h' w' :
  reach h w ->
  form (render (comp w)) = PasswordForm ->
  run w h' w' ->
  form (render (comp w')) = PasswordForm /\
  exists more, issued w' = issued w ++ more /\ Forall is_resetPassword more.
Proof.
  intros Hreach Hform Hrun.
  induction Hrun as [|h' w1 l w2 Hrun IH Hstep].
  - split; [exact Hform|]. exists []. rewrite app_nil_r.
    split; [reflexivity | constructor].
  - destruct IH as (Hform1 & more1 & E1 & Hall1).
    destruct (password_form_step (run_reach Hreach Hrun) Hstep Hform1)
      as (Hform2 & more2 & E2 & Hall2).
    split; [exact Hform2|]. exists (more1 ++ more2).
    rewrite E2, E1, app_assoc. split; [reflexivity|].
    apply Forall_app; split; assumption.
Qed.

Lemma scheduled_app a b : scheduled (a ++ b) = scheduled a ++ scheduled b.
Proof. unfold scheduled; apply flat_map_app. Qed.

(** X6. The screen schedules its return, [setTimeout(onBack, 3000)], once
    for each [resetPassword] call that resolved and at no other time: not
    after a verification, not after a failure, not on a mismatch. *)
Theorem onBack_scheduled_per_reset h (w : World screen) :
  reach h w ->
  scheduled (signalled w) = repeat 3000%N (resets_resolved h).
Proof.
  induction 1 as [|h w l w' Hreach IH Hstep]; [reflexivity|].
  destruct l as [e | c o].
  - apply step_ui_inv in Hstep. destruct Hstep as (r & Hr & ->). simpl.
    rewrite scheduled_app, (fire_signals _ _ Hr), app_nil_r. exact IH.
  - destruct (accounted_reach Hreach) as (Hfl & _ & _).
    apply step_settle_inv in Hstep.
    destruct Hstep as (before & k & after & Hin & ->).
    pose proof (proj1 (inflight_settled _ _ _ _ _ Hin)) as Hk.
    simpl signalled. rewrite scheduled_app, IH.
    destruct (Hfl c k Hk) as [[-> (o' & ->)] | [-> (t & p & ->)]];
      destruct o as [v | err]; unfold resets_resolved; simpl;
      rewrite ?app_nil_r; trivial.
    symmetry. apply (repeat_cons _ 3000%N).
Qed.

(** X7. A successful reset does not clear the error: whatever error alert
    was on screen when matching passwords were submitted is still there,
    next to the success message, after [resetPassword] has resolved. *)
Theorem reset_success_keeps_error (s : State) v :
  newPassword s = confirmPassword s ->
  let s' := fst (settle (Resolved v) (handlePasswordReset s)) in
  errorAlert (render s') = errorAlert (render s) /\
  successAlert (render s') = Some passwordResetSuccessfully /\
  snd (settle (Resolved v) (handlePasswordReset s))
  = [setTimeout_onBack 3000].
Proof.
  intros E. unfold handlePasswordReset, settle.
  rewrite E, strict_eq_refl. simpl. repeat split.
Qed.

(** X8. The error shown after a rejected call of the reset screen is the
    message of the response when that is a non-empty string, and the
    fixed text of the call otherwise; [err.message] plays no part. *)
Theorem rejection_message (err : Failure) (s : State) :
  let afterVerify :=
    errorAlert (render (fst (afterVerifyOTP resetToken (Rejected err) s))) in
  let afterReset :=
    errorAlert (render (fst (afterResetPassword (Rejected err) s))) in
  (forall m, response_data_message err = Some m -> m <> [] ->
     afterVerify = Some m /\ afterReset = Some m) /\
  (response_data_message err = None \/ response_data_message err = Some [] ->
     afterVerify = Some otpVerificationFailed /\
     afterReset = Some passwordResetFailed).
Proof.
  simpl. split.
  - intros m -> Hm. destruct m; [contradiction Hm; reflexivity|].
    split; reflexivity.
  - intros [-> | ->]; split; reflexivity.
Qed.
End ResetScreen.

(* ================================================================== *)
(** ** The settings form: what is sent, and what is shown afterwards *)

Section SettingsForm.
Import Validators Settings.
Variable validatePassword : jsstring -> Validation.

Local Abbreviation page := (component validatePassword).

Lemma handlePasswordChange_clears name value (s : State) :
  passwordError (handlePasswordChange name value s) = [] /\
  passwordSuccess (handlePasswordChange name value s) = [] /\
  passwordData (handlePasswordChange name value s)
  = assign name value (passwordData s).
Proof.
  unfold handlePasswordChange.
  destruct (truthy (passwordError s)) eqn:He,
           (truthy (passwordSuccess s)) eqn:Hs; simpl;
    repeat split; try (apply truthy_false_iff; assumption).
Qed.

Lemma dispatch_cases e (s : State) (r : Ran State Signal) :
  fire page e s = Some r ->
  (exists name value,
     e = change name value /\
     r = {| state := handlePasswordChange name value s;
            signals := []; awaiting := None |}) \/
  (e = submit /\ isUpdatingPassword s = false /\
   r = handlePasswordUpdate validatePassword s).
Proof.
  change (fire page e s) with (dispatch validatePassword e s).
  destruct e as [name value|]; simpl.
  - intros [= <-]. left; eauto.
  - unfold submitDisabled. destruct (isUpdatingPassword s); [discriminate|].
    intros [= <-]. right; repeat split.
Qed.

(** X9. [handlePasswordUpdate] calls [changePassword] exactly when no
    local check fails, and then with the current and the new password as
    entered; when a check fails it calls nothing. *)
Theorem handlePasswordUpdate_calls_iff (s : State) :
  (called (handlePasswordUpdate validatePassword s)
   = [changePassword (currentPassword (passwordData s))
                     (newPassword (passwordData s))]
   <-> ~ fails_locally validatePassword (passwordData s)) /\
  (called (handlePasswordUpdate validatePassword s) = []
   <-> fails_locally validatePassword (passwordData s)).
Proof.
  pose proof (handlePasswordUpdate_cases validatePassword s) as H.
  cbv zeta in H. unfold fails_locally.
  destruct H as [(Hc & E) | [(Hc & Hv & E) | [(Hc & Hv & Hm & E)
    | [(Hc & Hv & Hm & Hs & E) | (Hc & Hv & Hm & Hd & E & _)]]]].
  1-4: rewrite E; unfold called, stopWith; simpl; split; split;
    [ discriminate | intros F; exfalso; apply F; tauto
    | intros _; tauto | reflexivity ].
  rewrite E. split; split.
  - intros _ [F | [F | [F | F]]]; congruence.
  - reflexivity.
  - discriminate.
  - intros [F | [F | [F | F]]]; congruence.
Qed.

(** X10. The error [handlePasswordUpdate] reports is that of the first
    check that fails, in this order: a missing current password, the
    validator's message, the mismatch with the confirmation, the unchanged
    password. *)
Theorem handlePasswordUpdate_first_error (s : State) :
  let d := passwordData s in
  let reported := passwordError (state (handlePasswordUpdate validatePassword s)) in
  (currentPassword d = [] -> reported = currentPasswordRequired) /\
  (currentPassword d <> [] ->
   isValid (validatePassword (newPassword d)) = false ->
   reported = message (validatePassword (newPassword d))) /\
  (currentPassword d <> [] ->
   isValid (validatePassword (newPassword d)) = true ->
   newPassword d <> confirmPassword d ->
   reported = newPasswordsDoNotMatch) /\
  (currentPassword d <> [] ->
   isValid (validatePassword (newPassword d)) = true ->
   newPassword d = confirmPassword d ->
   currentPassword d = newPassword d ->
   reported = mustBeDifferent) /\
  (~ fails_locally validatePassword d -> reported = []).
Proof.
  pose proof (handlePasswordUpdate_cases validatePassword s) as H.
  cbv zeta in H |- *. unfold fails_locally.
  destruct H as [(Hc & E) | [(Hc & Hv & E) | [(Hc & Hv & Hm & E)
    | [(Hc & Hv & Hm & Hs & E) | (Hc & Hv & Hm & Hd & _ & _ & E)]]]];
    rewrite E; unfold stopWith; simpl;
    repeat split; intros; try congruence; try contradiction;
    try (exfalso; tauto).
Qed.

(** X11. Typing into any of the three password inputs removes both
    alerts, puts the typed value into that input and leaves the other two
    inputs and the save button as they were. *)
Theorem typing_clears_alerts name value (s : State) :
  let s' := handlePasswordChange name value s in
  SecuritySection.errorAlert (SecuritySection.render s') = None /\
  SecuritySection.successAlert (SecuritySection.render s') = None /\
  SecuritySection.value name (passwordData s') = value /\
  (forall other, other <> name ->
     SecuritySection.value other (passwordData s')
     = SecuritySection.value other (passwordData s)) /\
  SecuritySection.saveDisabled (SecuritySection.render s')
  = SecuritySection.saveDisabled (SecuritySection.render s).
Proof.
  destruct (handlePasswordChange_clears name value s) as (He & Hs & Hd).
  cbv zeta. unfold SecuritySection.render; simpl.
  rewrite He, Hs, Hd, handlePasswordChange_keeps_flag.
  repeat split; try (destruct name; reflexivity).
  intros other Hne. destruct name, other; try reflexivity; contradiction.
Qed.

(** What holds of every state of the settings form: while a call is in
    flight no alert is up, and a success message is only ever up over
    empty inputs. *)
Lemma settings_alerts h (w : World page) :
  reach h w ->
  (inflight w <> [] ->
   passwordError (comp w) = [] /\ passwordSuccess (comp w) = []) /\
  (passwordSuccess (comp w) <> [] -> passwordData (comp w) = emptyPasswordData).
Proof.
  induction 1 as [|h w l w' Hreach IH Hstep].
  - split; [intros H; contradiction H; reflexivity
           | intros H; contradiction H; reflexivity].
  - destruct IH as [IHfl IHok].
    destruct (one_update_at_a_time Hreach) as [Hlen Hbusy].
    destruct l as [e | c o].
    + apply step_ui_inv in Hstep. destruct Hstep as (r & Hr & ->).
      destruct (dispatch_cases _ _ Hr)
        as [(name & value & -> & ->) | (-> & Hidle & ->)]; simpl.
      * destruct (handlePasswordChange_clears name value (comp w))
          as (He & Hs & _).
        split; [intros _; split; assumption|].
        intros Hne; contradiction.
      * assert (Hnone : inflight w = []).
        { destruct (inflight w) eqn:Hw; [reflexivity|].
          unfold submitDisabled in Hbusy. rewrite Hbusy in Hidle;
            [discriminate | discriminate]. }
        pose proof (handlePasswordUpdate_cases validatePassword (comp w))
          as H. cbv zeta in H.
        destruct H as [(_ & E) | [(_ & _ & E) | [(_ & _ & _ & E)
          | [(_ & _ & _ & _ & E) | (Hc & _ & _ & _ & _ & Ea & Es)]]]].
        1-4: rewrite E; simpl; rewrite Hnone; simpl;
          (split; [intros F; contradiction F; reflexivity | exact IHok]).
        rewrite Ea, Es; simpl.
        assert (Hs : passwordSuccess (comp w) = []).
        { destruct (passwordSuccess (comp w)) eqn:Hsucc; [reflexivity|].
          rewrite IHok in Hc by discriminate.
          contradiction Hc; reflexivity. }
        split; [intros _; split; [reflexivity | exact Hs]|].
        intros Hne; contradiction.
    + apply step_settle_inv in Hstep.
      destruct Hstep as (before & k & after & Hin & ->).
      pose proof (proj1 (inflight_settled _ _ _ _ _ Hin)) as Hk.
      destruct (inflight_afterChangePassword Hreach _ _ Hk) as [-> _].
      rewrite Hin, length_app in Hlen; simpl in Hlen.
      assert (before = [] /\ after = []) as [-> ->]
        by (destruct before, after; simpl in Hlen; try lia;
            split; reflexivity).
      simpl. split; [intros F; contradiction F; reflexivity|].
      intros _. apply afterChangePassword_clears.
Qed.

(** X12. When a [changePassword] call settles, exactly one alert comes
    up: the success message if it resolved, an error if it was rejected.
    Either way the three inputs are emptied, nothing is left in flight
    and the save button is enabled again. *)
Theorem settled_change_shows_one_alert h (w w' : World page) c o :
  reach h w ->
  step w (Settle page c o) w' ->
  passwordData (comp w') = emptyPasswordData /\
  inflight w' = [] /\
  SecuritySection.saveDisabled (SecuritySection.render (comp w')) = false /\
  match o with
  | Resolved _ =>
      SecuritySection.successAlert (SecuritySection.render (comp w'))
      = Some updatedSuccessfully /\
      SecuritySection.errorAlert (SecuritySection.render (comp w')) = None
  | Rejected _ =>
      SecuritySection.successAlert (SecuritySection.render (comp w')) = None /\
      SecuritySection.errorAlert (SecuritySection.render (comp w')) <> None
  end.
Proof.
  intros Hreach Hstep.
  destruct (one_update_at_a_time Hreach) as [Hlen _].
  destruct (settings_alerts Hreach) as [Hquiet _].
  apply step_settle_inv in Hstep.
  destruct Hstep as (before & k & after & Hin & ->).
  pose proof (proj1 (inflight_settled _ _ _ _ _ Hin)) as Hk.
  destruct (inflight_afterChangePassword Hreach _ _ Hk) as [-> _].
  destruct Hquiet as [He Hs]; [rewrite Hin; destruct before; discriminate|].
  rewrite Hin, length_app in Hlen; simpl in Hlen.
  assert (before = [] /\ after = []) as [-> ->]
    by (destruct before, after; simpl in Hlen; try lia; split; reflexivity).
  split; [apply afterChangePassword_clears|]. split; [reflexivity|].
  destruct o as [v | err]; simpl; unfold SecuritySection.render; simpl;
    (split; [reflexivity|]).
  - rewrite He. split; reflexivity.
  - rewrite Hs. split; [reflexivity|]. unfold SecuritySection.alert.
    rewrite or_else_truthy;
      [discriminate | apply or_else_truthy; reflexivity].
Qed.

(** X13. The save button of the settings form is disabled exactly while a
    [changePassword] call is in flight. *)
Theorem isUpdatingPassword_iff_inflight h (w : World page) :
  reach h w ->
  (SecuritySection.saveDisabled (SecuritySection.render (comp w)) = true
   <-> inflight w <> []).
Proof.
  intros Hreach. simpl. split.
  - intros Hflag Hnil.
    assert (Hdown : isUpdatingPassword (comp w) = false).
    { refine (@idle_means_down page isUpdatingPassword eq_refl
                (@others_keep_isUpdatingPassword validatePassword)
                _ h w Hreach Hnil).
      intros h0 w0 c k o Hr Hin.
      destruct (inflight_afterChangePassword Hr _ _ Hin) as [-> _].
      destruct o; reflexivity. }
    rewrite Hdown in Hflag; discriminate.
  - apply (proj2 (one_update_at_a_time Hreach)).
Qed.

(** X14. Every call the settings form makes is a [changePassword] whose
    current password is not empty, whose new password the validator
    accepted, and whose new password differs from the current one. *)
Theorem only_validated_passwords_are_sent h (w : World page) c :
  reach h w ->
  In c (issued w) ->
  exists current new,
    c = changePassword current new /\
    current <> [] /\
    isValid (validatePassword new) = true /\
    current <> new.
Proof.
  intros Hreach; revert c.
  induction Hreach as [|h w l w' Hreach IH Hstep]; [intros c []|].
  destruct l as [e | c0 o].
  - apply step_ui_inv in Hstep. destruct Hstep as (r & Hr & ->). simpl.
    intros c Hin. apply in_app_or in Hin.
    destruct Hin as [Hin | Hin]; [exact (IH c Hin)|].
    destruct (dispatch_cases _ _ Hr)
      as [(name & value & -> & ->) | (-> & _ & ->)]; [destruct Hin|].
    pose proof (handlePasswordUpdate_cases validatePassword (comp w)) as H.
    cbv zeta in H.
    destruct H as [(_ & E) | [(_ & _ & E) | [(_ & _ & _ & E)
      | [(_ & _ & _ & _ & E) | (Hc & Hv & _ & Hd & E & _)]]]];
      rewrite E in Hin; simpl in Hin; try contradiction.
    destruct Hin as [<- | []]. eauto 6.
  - apply step_settle_inv in Hstep.
    destruct Hstep as (before & k & after & _ & ->). exact IH.
Qed.

(** X15. The error shown after a rejected [changePassword] is the message
    of the response when that is a non-empty string; failing that,
    [error.message] when that is a non-empty string; failing both, the
    fixed text. *)
Theorem change_rejection_message (err : Failure) (s : State) :
  let shown := passwordError (fst (afterChangePassword (Rejected err) s)) in
  let absent (m : option jsstring) := m = None \/ m = Some [] in
  (forall m, response_data_message err = Some m -> m <> [] -> shown = m) /\
  (forall m, absent (response_data_message err) ->
     error_message err = Some m -> m <> [] -> shown = m) /\
  (absent (response_data_message err) -> absent (error_message err) ->
     shown = failedToUpdate).
Proof.
  cbv zeta; simpl. repeat split.
  - intros m -> Hm. destruct m; [contradiction Hm|]; reflexivity.
  - intros m [-> | ->] -> Hm; (destruct m; [contradiction Hm|]);
      reflexivity.
  - intros [-> | ->] [-> | ->]; reflexivity.
Qed.
End SettingsForm.

(* ================================================================== *)
(** ** The checklist *)

Section Checklist.
Import Validators.

Lemma test_app cls (a b : jsstring) :
  test cls (a ++ b) = test cls a || test cls b.
Proof. unfold test; apply existsb_app. Qed.

Lemma leb_true_trans (x y : bool) (H : x = true -> y = true) :
  Bool.le x y.
Proof.
  destruct x, y; simpl; auto; specialize (H eq_refl); discriminate.
Qed.

(** X16. Typing more never turns a satisfied requirement off: whatever is
    inserted anywhere into the new password, each of the five checklist
    items that was lit stays lit. *)
Theorem requirements_grow (before inserted after : jsstring) :
  Forall2 Bool.le
    (flags (requirementItems (before ++ after)))
    (flags (requirementItems (before ++ inserted ++ after))).
Proof.
  unfold flags, requirementItems;
    cbn [atLeast8 oneLowercase oneUppercase oneNumber oneSpecial].
  repeat constructor; apply leb_true_trans.
  - rewrite !Nat.leb_le, !length_app. lia.
  - rewrite !test_app, !orb_true_iff; tauto.
  - rewrite !test_app, !orb_true_iff; tauto.
  - rewrite !test_app, !orb_true_iff; tauto.
  - rewrite !test_app, !orb_true_iff; tauto.
Qed.

Lemma special_cases c :
  special c = true -> In c specialChars.
Proof. apply one_of_iff. Qed.

Lemma character_classes_disjoint (c : code_unit) :
  (List.length
     (filter (fun cls => cls c) [lowercase; uppercase; digit; special])
   <= 1)%nat.
Proof.
  destruct (special c) eqn:Hs.
  - apply special_cases in Hs. unfold specialChars in Hs.
    repeat (destruct Hs as [<- | Hs]; [vm_compute; lia|]). destruct Hs.
  - simpl. rewrite Hs. unfold lowercase, uppercase, digit, in_range.
    destruct (N.leb_spec 97 c), (N.leb_spec c 122), (N.leb_spec 65 c),
      (N.leb_spec c 90), (N.leb_spec 48 c), (N.leb_spec c 57);
      simpl; lia.
Qed.

Lemma two_classes_differ (f g : code_unit -> bool) a b :
  (forall c, f c = true -> g c = true -> False) ->
  f a = true -> g b = true -> a <> b.
Proof. intros Hfg Ha Hb E; subst; exact (Hfg b Ha Hb). Qed.

(** X17. No character counts for two requirements, so a password that
    lights all five checklist items contains at least four different
    characters: a lowercase letter, an uppercase letter, a digit and a
    special character, no two of them the same. *)
Theorem all_lit_needs_four_characters (p : jsstring) :
  forallb (fun b => b) (flags (requirementItems p)) = true ->
  exists a b c d,
    lowercase a = true /\ uppercase b = true /\
    digit c = true /\ special d = true /\
    incl [a; b; c; d] p /\ NoDup [a; b; c; d].
Proof.
  unfold flags, requirementItems;
    cbn [atLeast8 oneLowercase oneUppercase oneNumber oneSpecial forallb].
  rewrite !andb_true_iff, !test_iff.
  intros (_ & (a & Ia & Ha) & (b & Ib & Hb) & (c & Ic & Hc)
            & (d & Id & Hd) & _).
  exists a, b, c, d. repeat (split; [assumption|]).
  assert (Hab : a <> b).
  { apply (two_classes_differ lowercase uppercase); trivial.
    intros x H1 H2. pose proof (character_classes_disjoint x) as H.
    simpl in H. rewrite H1, H2 in H. simpl in H. lia. }
  assert (Hac : a <> c).
  { apply (two_classes_differ lowercase digit); trivial.
    intros x H1 H2. pose proof (character_classes_disjoint x) as H.
    simpl in H. rewrite H1, H2 in H.
    destruct (uppercase x); simpl in H; lia. }
  assert (Had : a <> d).
  { apply (two_classes_differ lowercase special); trivial.
    intros x H1 H2. pose proof (character_classes_disjoint x) as H.
    simpl in H. rewrite H1, H2 in H.
    destruct (uppercase x), (digit x); simpl in H; lia. }
  assert (Hbc : b <> c).
  { apply (two_classes_differ uppercase digit); trivial.
    intros x H1 H2. pose proof (character_classes_disjoint x) as H.
    simpl in H. rewrite H1, H2 in H.
    destruct (lowercase x); simpl in H; lia. }
  assert (Hbd : b <> d).
  { apply (two_classes_differ uppercase special); trivial.
    intros x H1 H2. pose proof (character_classes_disjoint x) as H.
    simpl in H. rewrite H1, H2 in H.
    destruct (lowercase x), (digit x); simpl in H; lia. }
  assert (Hcd : c <> d).
  { apply (two_classes_differ digit special); trivial.
    intros x H1 H2. pose proof (character_classes_disjoint x) as H.
    simpl in H. rewrite H1, H2 in H.
    destruct (lowercase x), (uppercase x); simpl in H; lia. }
  split.
  - intros x [<- | [<- | [<- | [<- | []]]]]; assumption.
  - repeat constructor; simpl; intuition congruence.
Qed.
End Checklist.

(* ================================================================== *)
(** ** The further properties at work on the sample sessions *)

Lemma blankAccepted_reached :
  reach SampleMore.blankSession SampleMore.blankAccepted.
Proof. unfold SampleMore.blankSession; play. Defined.

Lemma isSubmitting_iff_inflight_witness :
  OTPVerification.submitDisabled
    (OTPVerification.render (comp SampleRun.verifying)) = true
  <-> inflight SampleRun.verifying <> [].
Proof. exact (isSubmitting_iff_inflight verifying_reached). Defined.

Lemma rejection_allows_retry_witness :
  exists w',
    step SampleRun.verifying
      (Settle SampleRun.screen (verifyOTP Sample.resetToken (str "123456"))
         (Rejected SampleMore.invalidOtp)) w' /\
    inflight w' = [] /\
    OTPVerification.deliver Sample.resetToken OTPVerification.submit
      (comp w')
    = Some (OTPVerification.handleVerifyOTP Sample.resetToken (comp w')).
Proof.
  eassert (Hstep : step SampleRun.verifying
                     (Settle SampleRun.screen
                        (verifyOTP Sample.resetToken (str "123456"))
                        (Rejected SampleMore.invalidOtp)) _)
    by (eapply step_settle_to; reflexivity).
  eexists; split; [exact Hstep|].
  destruct (rejection_allows_retry verifying_reached Hstep)
    as (Hnone & _ & _ & _ & _ & _ & Hdeliver).
  split; [exact Hnone | exact Hdeliver].
Defined.

Lemma empty_resetToken_never_resets_witness :
  OTPVerification.verificationToken (comp SampleMore.blankAccepted)
  = Some [] /\
  OTPVerification.form
    (OTPVerification.render (comp SampleMore.blankAccepted))
  = OTPVerification.OTPForm.
Proof.
  split; [reflexivity|].
  exact (proj1 (@empty_resetToken_never_resets [] _ _ eq_refl
                  blankAccepted_reached)).
Defined.

Lemma verification_opens_password_form_witness :
  OTPVerification.form (OTPVerification.render (comp SampleRun.accepted))
  = OTPVerification.PasswordForm.
Proof.
  assert (Hstep : step SampleRun.verifying
                    (Settle SampleRun.screen
                       (verifyOTP Sample.resetToken (str "123456"))
                       (Resolved (Some Sample.serverToken)))
                    SampleRun.accepted)
    by (eapply step_settle_to; reflexivity).
  destruct (verification_opens_password_form verifying_reached Hstep)
    as (_ & _ & _ & _ & Hform).
  apply Hform. vm_compute; discriminate.
Defined.

Lemma password_form_is_permanent_witness :
  OTPVerification.form (OTPVerification.render (comp SampleRun.resetting))
  = OTPVerification.PasswordForm.
Proof.
  exact (proj1 (password_form_is_permanent accepted_reached eq_refl
                  accepted_to_resetting)).
Defined.

Lemma done_reached : reach SampleMore.completed SampleMore.done.
Proof.
  refine (run_step resetting_reached _).
  eapply step_settle_to; reflexivity.
Defined.

Lemma onBack_scheduled_per_reset_witness :
  scheduled (signalled SampleMore.done) = [3000%N].
Proof. exact (onBack_scheduled_per_reset done_reached). Defined.

Lemma reset_success_keeps_error_witness :
  OTPVerification.errorAlert
    (OTPVerification.render
       (fst (settle (Resolved None)
               (OTPVerification.handlePasswordReset SampleMore.corrected))))
  = Some OTPVerification.passwordsDoNotMatch.
Proof.
  destruct (@reset_success_keeps_error SampleMore.corrected None eq_refl)
    as (Herr & _ & _).
  rewrite Herr. reflexivity.
Defined.

Lemma rejection_message_witness :
  OTPVerification.errorAlert
    (OTPVerification.render
       (fst (OTPVerification.afterVerifyOTP Sample.resetToken
               (Rejected SampleMore.invalidOtp) Sample.otpTyped)))
  = Some (str "Invalid OTP") /\
  OTPVerification.errorAlert
    (OTPVerification.render
       (fst (OTPVerification.afterResetPassword
               (Rejected SampleMore.networkError) SampleMore.corrected)))
  = Some OTPVerification.passwordResetFailed.
Proof.
  split.
  - refine (proj1 (proj1 (rejection_message Sample.resetToken
                            SampleMore.invalidOtp Sample.otpTyped)
                     (str "Invalid OTP") eq_refl _)).
    vm_compute; discriminate.
  - exact (proj2 (proj2 (rejection_message Sample.resetToken
                           SampleMore.networkError SampleMore.corrected)
                    (or_introl eq_refl))).
Defined.

Lemma handlePasswordUpdate_first_error_witness :
  Settings.passwordError
    (state (Settings.handlePasswordUpdate Sample.validate
              (Sample.filled [] Sample.weak Sample.strong)))
  = Settings.currentPasswordRequired.
Proof.
  exact (proj1 (handlePasswordUpdate_first_error Sample.validate
                  (Sample.filled [] Sample.weak Sample.strong)) eq_refl).
Defined.

Lemma typing_clears_alerts_witness :
  SecuritySection.value Settings.nameCurrentPassword
    (Settings.passwordData
       (Settings.handlePasswordChange Settings.nameNewPassword Sample.weak
          (Sample.filled Sample.strong [] [])))
  = Sample.strong.
Proof.
  destruct (typing_clears_alerts Settings.nameNewPassword Sample.weak
              (Sample.filled Sample.strong [] []))
    as (_ & _ & _ & Hothers & _).
  rewrite (Hothers Settings.nameCurrentPassword); [reflexivity|discriminate].
Defined.

Lemma settled_change_shows_one_alert_witness :
  exists w',
    step SampleRun.updating
      (Settle (Settings.component Sample.validate)
         (changePassword Sample.strong (str "Abcdef1?")) (Resolved None))
      w' /\
    SecuritySection.successAlert (SecuritySection.render (comp w'))
    = Some Settings.updatedSuccessfully /\
    SecuritySection.errorAlert (SecuritySection.render (comp w')) = None.
Proof.
  eassert (Hstep : step SampleRun.updating
                     (Settle (Settings.component Sample.validate)
                        (changePassword Sample.strong (str "Abcdef1?"))
                        (Resolved None)) _)
    by (eapply step_settle_to; reflexivity).
  eexists; split; [exact Hstep|].
  exact (proj2 (proj2 (proj2
           (settled_change_shows_one_alert updating_reached Hstep)))).
Defined.

Lemma isUpdatingPassword_iff_inflight_witness :
  SecuritySection.saveDisabled
    (SecuritySection.render (comp SampleRun.updating)) = true
  <-> inflight SampleRun.updating <> [].
Proof. exact (isUpdatingPassword_iff_inflight updating_reached). Defined.

Lemma only_validated_passwords_are_sent_witness :
  exists current new,
    changePassword Sample.strong (str "Abcdef1?")
    = changePassword current new /\
    current <> [] /\
    Validators.isValid (Sample.validate new) = true /\
    current <> new.
Proof.
  apply (@only_validated_passwords_are_sent Sample.validate _ _ _
           updating_reached).
  left; reflexivity.
Defined.

Lemma change_rejection_message_witness :
  Settings.passwordError
    (fst (Settings.afterChangePassword (Rejected SampleMore.networkError)
            (comp SampleRun.updating)))
  = str "Network Error".
Proof.
  refine (proj1 (proj2 (change_rejection_message SampleMore.networkError
                          (comp SampleRun.updating)))
            (str "Network Error") (or_introl eq_refl) eq_refl _).
  vm_compute; discriminate.
Defined.

Lemma all_lit_needs_four_characters_witness :
  exists a b c d,
    Validators.lowercase a = true /\ Validators.uppercase b = true /\
    Validators.digit c = true /\ Validators.special d = true /\
    incl [a; b; c; d] Sample.strong /\ NoDup [a; b; c; d].
Proof. exact (@all_lit_needs_four_characters Sample.strong eq_refl). Defined.

(* ================================================================== *)
(** ** The form data *)

Section FormDataFacts.
Import FormData.

Lemma lookup_assign_same key v (o : Object) :
  lookup key (assign key v o) = v.
Proof.
  induction o as [|[k x] o IH]; simpl.
  - rewrite strict_eq_refl; reflexivity.
  - destruct (strict_eq k key) eqn:E; simpl; rewrite E; [reflexivity|exact IH].
Qed.

Lemma lookup_assign_other key other v (o : Object) :
  other <> key -> lookup other (assign key v o) = lookup other o.
Proof.
  intros Hne. induction o as [|[k x] o IH]; simpl.
  - rewrite strict_eq_neq by congruence. reflexivity.
  - destruct (strict_eq k key) eqn:E; simpl.
    + apply strict_eq_iff in E; subst k.
      rewrite strict_eq_neq by congruence. reflexivity.
    + rewrite IH. reflexivity.
Qed.

Lemma split_dot_plain (s : jsstring) :
  includes_dot s = false -> split_dot s = [s].
Proof.
  induction s as [|c s IH]; [reflexivity|]. intros H.
  unfold includes_dot in H; cbn [existsb] in H.
  apply orb_false_iff in H. destruct H as [Hc Hs].
  cbn [app split_dot]. rewrite N.eqb_sym, Hc, (IH Hs). reflexivity.
Qed.

Lemma split_dot_at (s rest : jsstring) :
  includes_dot s = false ->
  split_dot (s ++ 46%N :: rest) = s :: split_dot rest.
Proof.
  induction s as [|c s IH]; [reflexivity|]. intros H.
  unfold includes_dot in H; cbn [existsb] in H.
  apply orb_false_iff in H. destruct H as [Hc Hs].
  cbn [app split_dot]. rewrite N.eqb_sym, Hc, (IH Hs). reflexivity.
Qed.

Lemma split_dot_two (s : jsstring) :
  includes_dot s = true ->
  exists parent child rest, split_dot s = parent :: child :: rest.
Proof.
  assert (Hone : forall x, exists a rest, split_dot x = a :: rest).
  { induction x as [|c x (a & rest & IH)]; cbn [split_dot]; [eauto|].
    destruct (N.eqb c 46); [eauto | rewrite IH; eauto]. }
  induction s as [|c s IH]; [discriminate|]. intros H.
  unfold includes_dot in H; cbn [existsb] in H. cbn [split_dot].
  rewrite N.eqb_sym in H. destruct (N.eqb c 46).
  - destruct (Hone s) as (a & rest & ->). eauto.
  - destruct (IH H) as (a & b & rest & ->). eauto.
Qed.

Lemma includes_dot_app (a b : jsstring) :
  includes_dot (a ++ b) = includes_dot a || includes_dot b.
Proof. unfold includes_dot; apply existsb_app. Qed.

(** X18. A change from an input whose name has no dot is stored under
    that name, as the [checked] flag for a checkbox and as the [value]
    otherwise, and every other key of [formData] keeps its value. *)
Theorem plain_name_is_stored (t : Target) (prev : Object) :
  includes_dot (name t) = false ->
  let formData := snd (handleInputChange t prev) in
  lookup (name t) formData = entry t /\
  forall other, other <> name t -> lookup other formData = lookup other prev.
Proof.
  intros Hplain. unfold handleInputChange. rewrite Hplain. simpl. split.
  - apply lookup_assign_same.
  - intros other Hne. apply lookup_assign_other; exact Hne.
Qed.

(** X19. A change from an input named [parent.child] is stored under
    [child] inside the object under [parent]; the other properties of that
    object and the other keys of [formData] keep their values.  Only the
    first two parts of the name count: whatever follows a second dot is
    ignored. *)
Theorem dotted_name_is_stored_nested (t : Target) (prev : Object)
    (parent child tail : jsstring) :
  includes_dot parent = false ->
  includes_dot child = false ->
  (tail = [] \/ exists more, tail = 46%N :: more) ->
  name t = parent ++ 46%N :: child ++ tail ->
  let formData := snd (handleInputChange t prev) in
  lookup child (spread (lookup parent formData)) = entry t /\
  (forall sibling, sibling <> child ->
     lookup sibling (spread (lookup parent formData))
     = lookup sibling (spread (lookup parent prev))) /\
  (forall other, other <> parent ->
     lookup other formData = lookup other prev).
Proof.
  intros Hp Hc Htail Hname. unfold handleInputChange.
  assert (Hdot : includes_dot (name t) = true).
  { rewrite Hname, includes_dot_app. simpl. apply orb_true_r. }
  assert (Hsplit : exists rest, split_dot (name t) = parent :: child :: rest).
  { rewrite Hname, (@split_dot_at parent _ Hp).
    destruct Htail as [-> | (more & ->)].
    - rewrite app_nil_r, (@split_dot_plain child Hc). eauto.
    - rewrite (@split_dot_at child _ Hc). eauto. }
  destruct Hsplit as (rest & ->). rewrite Hdot. simpl.
  rewrite lookup_assign_same. simpl. repeat split.
  - apply lookup_assign_same.
  - intros sibling Hne. apply lookup_assign_other; exact Hne.
  - intros other Hne. apply lookup_assign_other; exact Hne.
Qed.

(** X20. [setTheme] is called exactly by a change from an input named
    [theme], once and with its [value]; a change from any other input
    calls nothing. *)
Theorem setTheme_only_for_theme (t : Target) (prev : Object) :
  (name t = str "theme" -> fst (handleInputChange t prev) = [value t]) /\
  (name t <> str "theme" -> fst (handleInputChange t prev) = []).
Proof.
  unfold handleInputChange. split; intros H.
  - rewrite H. reflexivity.
  - rewrite (strict_eq_neq H).
    destruct (includes_dot (name t)); [|reflexivity].
    destruct (split_dot (name t)) as [|? [|? ?]]; reflexivity.
Qed.

(** X21. The names of the nine inputs fit the layout of [formData]: the
    initial data has that layout, and a change from any rendered input
    keeps it, adding no key at the top and none among the notification
    flags. *)
Theorem rendered_inputs_keep_layout :
  (forall username email currentTheme,
     shaped (initial username email currentTheme)) /\
  (forall (t : Target) (prev : Object),
     shaped prev -> In (name t, type t) inputs ->
     shaped (snd (handleInputChange t prev))).
Proof.
  split.
  - intros u e th. split; [reflexivity|].
    eexists; split; reflexivity.
  - intros [n v ty ch] prev (Hkeys & flags & Hflags & Hfkeys) Hin.
    unfold keys in Hkeys, Hfkeys. simpl in Hin, Hkeys.
    destruct prev as [|[k1 v1] [|[k2 v2] [|[k3 v3] [|[k4 v4] [|[k5 v5]
      [|[k6 v6] [|[k7 v7] [|? ?]]]]]]]]; try discriminate Hkeys.
    injection Hkeys as -> -> -> -> -> -> ->.
    destruct flags as [|[f1 x1] [|[f2 x2] [|[f3 x3] [|? ?]]]];
      try discriminate Hfkeys.
    injection Hfkeys as -> -> ->.
    vm_compute in Hflags. subst v7.
    repeat (destruct Hin as [Hin | Hin];
            [injection Hin as <- <-; split;
             [reflexivity | eexists; split; reflexivity]|]).
    destruct Hin.
Qed.
End FormDataFacts.

Lemma plain_name_is_stored_witness :
  FormData.lookup (str "theme")
    (snd (FormData.handleInputChange FormData.darkChosen FormData.sample))
  = FormData.VString (str "dark") /\
  FormData.lookup (str "username")
    (snd (FormData.handleInputChange FormData.darkChosen FormData.sample))
  = FormData.VString (str "ada").
Proof.
  destruct (@plain_name_is_stored FormData.darkChosen FormData.sample
              eq_refl) as [Hset Hkept].
  split; [exact Hset|].
  rewrite (Hkept (str "username")); [reflexivity | vm_compute; discriminate].
Defined.

Lemma dotted_name_is_stored_nested_witness :
  FormData.lookup (str "push")
    (FormData.spread
       (FormData.lookup (str "notifications")
          (snd (FormData.handleInputChange FormData.pushTicked
                  FormData.sample))))
  = FormData.VBool true.
Proof.
  exact (proj1 (@dotted_name_is_stored_nested FormData.pushTicked
                  FormData.sample (str "notifications") (str "push") []
                  eq_refl eq_refl (or_introl eq_refl) eq_refl)).
Defined.

Lemma setTheme_only_for_theme_witness :
  fst (FormData.handleInputChange FormData.darkChosen FormData.sample)
  = [str "dark"] /\
  fst (FormData.handleInputChange FormData.pushTicked FormData.sample) = [].
Proof.
  split.
  - exact (proj1 (setTheme_only_for_theme FormData.darkChosen
                    FormData.sample) eq_refl).
  - refine (proj2 (setTheme_only_for_theme FormData.pushTicked
                     FormData.sample) _).
    vm_compute; discriminate.
Defined.

Lemma rendered_inputs_keep_layout_witness :
  FormData.shaped
    (snd (FormData.handleInputChange FormData.pushTicked FormData.sample)).
Proof.
  destruct rendered_inputs_keep_layout as [Hinit Hkeep].
  apply Hkeep; [apply Hinit|].
  simpl. do 4 right. left. reflexivity.
Defined.
